(** * sUSDe term-structure monitor: the snapshot job, the history endpoint
      and the dashboard's market processing, embedded and verified.

    Source files embedded here:
    - [api/snapshot.js]   the daily job ([Snapshot.handler]);
    - the history endpoint (a second [handler], [History.handler]);
    - [src/App.js]        the dashboard ([App.fetchPendleMarkets],
      [App.processMarkets], [App.formatMaturity]).
    An earlier copy of the dashboard that the repository also keeps is
    not embedded.

    The feed and the storage service are outside the repository: what a
    request to them comes to is an input of the handlers, and the table
    of the storage service is a finite map from dates to rows.

    JavaScript numbers are IEEE 754 binary64 values and are modelled by
    Rocq's primitive [float], so [0.04 * 100] below is the very product
    the engine computes.  Time values (milliseconds since the epoch) and
    array lengths are integers well inside the exactly representable
    range and are modelled by [Z] and [nat].  The day count of the
    history endpoint comes from [parseInt] and is an integral number
    of any size, an infinity or [NaN]: it is modelled by
    [JS.Integral], with the rounding to binary64 written out.  A
    string is a string of bytes, a character outside ASCII being its
    UTF-8 bytes. *)

From Stdlib Require Import ZArith Floats String Ascii List Bool Lia DecimalString DecimalNat.
From Stdlib Require Import Sorting.Sorted Sorting.Permutation OrderedTypeEx.
From stdpp Require Import gmap strings list sorting.

Local Open Scope string_scope.
Local Open Scope Z_scope.
Set Warnings "-inexact-float".

(** ** The JavaScript built-ins the three files rely on *)
Module JS.

(** *** Truthiness and [||] on optional numbers

    A property that may be missing is an [option]; [None] is
    [undefined].  A number is falsy when it is [0], [-0] or [NaN]. *)
Definition truthy_num (x : float) : bool :=
  negb (PrimFloat.eqb x 0%float || PrimFloat.is_nan x).

Definition truthy (v : option float) : bool :=
  match v with
  | Some x => truthy_num x
  | None => false
  end.

(** [a || b] where both operands may be [undefined]. *)
Definition or_val (a b : option float) : option float :=
  if truthy a then a else b.

(** [a || d] where [d] is a number literal: the result is a number. *)
Definition or_num (a : option float) (d : float) : float :=
  match a with
  | Some x => if truthy_num x then x else d
  | None => d
  end.

(** Strings: the empty string and [undefined] are falsy. *)
Definition truthy_str (v : option string) : bool :=
  match v with
  | Some s => negb (String.eqb s "")
  | None => false
  end.

Definition or_str (a b : option string) : option string :=
  if truthy_str a then a else b.

Definition or_lit (a : option string) (d : string) : string :=
  match a with
  | Some s => if String.eqb s "" then d else s
  | None => d
  end.

(** *** [String.prototype.toLowerCase], on the ASCII letters.  No
    character outside [A-Z] lowers to a letter of ['susde'], so the
    matching below is unaffected by the rest of Unicode. *)
Definition lower_ascii (c : ascii) : ascii :=
  let n := nat_of_ascii c in
  if ((65 <=? n)%nat && (n <=? 90)%nat)%bool then ascii_of_nat (n + 32) else c.

Fixpoint toLowerCase (s : string) : string :=
  match s with
  | EmptyString => EmptyString
  | String c r => String (lower_ascii c) (toLowerCase r)
  end.

(** *** [String.prototype.includes] *)
Fixpoint includes (s pat : string) : bool :=
  if String.prefix pat s then true
  else match s with
       | EmptyString => false
       | String _ r => includes r pat
       end.

(** *** [s.split(c)[0]]: the text before the first [c]. *)
Fixpoint split_head (c : ascii) (s : string) : string :=
  match s with
  | EmptyString => EmptyString
  | String a r => if Ascii.eqb a c then EmptyString else String a (split_head c r)
  end.

(** *** [parseInt(string)] with no radix

    White space is skipped, then a sign, then [0x] or [0X]; the longest
    run of digits that follows is read as an integer, and the result is
    the binary64 number nearest to that integer: the integer itself up
    to [2^53], beyond that an integer of 53 significant bits, or an
    infinity.  Without a digit the result is [NaN]. *)
Inductive Integral :=
| NaN
| Finite (z : Z)
| Infinity (negative : bool).

(** The binary64 number nearest to an integer, the one with an even
    significand when two are equally near. *)
Definition round64 (z : Z) : Integral :=
  let a := Z.abs z in
  if a <? 2 ^ 53 then Finite z
  else
    let e := Z.log2 a - 52 in
    let q := a / 2 ^ e in
    let r := a mod 2 ^ e in
    let half := 2 ^ (e - 1) in
    let q := if (r <? half) || ((r =? half) && Z.even q) then q else q + 1 in
    if 2 ^ 1024 <=? q * 2 ^ e then Infinity (z <? 0)
    else Finite (Z.sgn z * (q * 2 ^ e)).

(** White space and line terminators of one byte: TAB, LF, VT, FF, CR
    and the space. *)
Definition is_space (c : ascii) : bool :=
  let n := nat_of_ascii c in
  ((9 <=? n)%nat && (n <=? 13)%nat || (n =? 32)%nat)%bool.

(** Those of three bytes: U+1680, U+2000 to U+200A, U+2028, U+2029,
    U+202F, U+205F, U+3000 and U+FEFF. *)
Definition is_wide_space (a b c : nat) : bool :=
  ((a =? 225) && (b =? 154) && (c =? 128)
   || (a =? 226) && (b =? 128)
      && ((128 <=? c) && (c <=? 138) || (c =? 168) || (c =? 169) || (c =? 175))
   || (a =? 226) && (b =? 129) && (c =? 159)
   || (a =? 227) && (b =? 128) && (c =? 128)
   || (a =? 239) && (b =? 187) && (c =? 191))%nat%bool.

(** The string without the white space it starts with; U+00A0 is the
    one of two bytes. *)
Fixpoint trim_start (s : string) : string :=
  match s with
  | String c r =>
      let n := nat_of_ascii c in
      if is_space c then trim_start r
      else if (n =? 194)%nat then
        match r with
        | String c1 r1 => if (nat_of_ascii c1 =? 160)%nat then trim_start r1 else s
        | EmptyString => s
        end
      else if ((225 <=? n) && (n <=? 239))%nat%bool then
        match r with
        | String c1 (String c2 r2) =>
            if is_wide_space n (nat_of_ascii c1) (nat_of_ascii c2) then trim_start r2 else s
        | _ => s
        end
      else s
  | EmptyString => EmptyString
  end.

Definition digit_of (radix : Z) (c : ascii) : option Z :=
  let n := Z.of_nat (nat_of_ascii c) in
  let d := if (48 <=? n) && (n <=? 57) then n - 48
           else if (97 <=? n) && (n <=? 122) then n - 87
           else if (65 <=? n) && (n <=? 90) then n - 55
           else 36 in
  if d <? radix then Some d else None.

(** The longest prefix of digits, accumulated from the left. *)
Fixpoint digits_prefix (radix : Z) (s : string) (acc : option Z) : option Z :=
  match s with
  | EmptyString => acc
  | String c r =>
      match digit_of radix c with
      | Some d => digits_prefix radix r (Some (radix * default 0 acc + d))
      | None => acc
      end
  end.

Definition parseInt (input : option string) : Integral :=
  match input with
  | None => NaN
  | Some str =>
      let s := trim_start str in
      let '(sign, s) :=
        match s with
        | String "-" r => (-1, r)
        | String "+" r => (1, r)
        | _ => (1, s)
        end in
      let '(radix, s) :=
        match s with
        | String "0" (String "x" r) => (16, r)
        | String "0" (String "X" r) => (16, r)
        | _ => (10, s)
        end in
      match digits_prefix radix s None with
      | Some n => round64 (sign * n)
      | None => NaN
      end
  end.

(** [n || d] for the result of [parseInt]: [NaN] and [0] are falsy. *)
Definition or_int (n : Integral) (d : Z) : Integral :=
  match n with
  | NaN | Finite 0 => Finite d
  | _ => n
  end.

(** [Math.min(n, b)] for an integer [b]. *)
Definition min (n : Integral) (b : Z) : Integral :=
  match n with
  | NaN => NaN
  | Finite z => Finite (Z.min z b)
  | Infinity true => n
  | Infinity false => Finite b
  end.

(** [a <= b] and [a < b]: false when an operand is [NaN]. *)
Definition leb (a b : Integral) : bool :=
  match a, b with
  | NaN, _ | _, NaN => false
  | Finite x, Finite y => x <=? y
  | Infinity negative, Finite _ => negative
  | Finite _, Infinity negative => negb negative
  | Infinity n1, Infinity n2 => n1 || negb n2
  end.

Definition ltb (a b : Integral) : bool :=
  match a, b with
  | NaN, _ | _, NaN => false
  | _, _ => negb (leb b a)
  end.

(** *** [Number.prototype.toFixed] and [parseFloat]

    [toFixed] picks the integer [n] with [n / 10^f] nearest to the
    exact value of the double, the larger one on a tie, after taking
    the sign off; values of magnitude [10^21] and above, [NaN] and the
    infinities are printed by [ToString] instead. *)
Inductive FixedString :=
| Digits (negative : bool) (n : Z) (f : nat)
| ToString (x : float).

Definition toFixed (x : float) (f : nat) : FixedString :=
  match Prim2SF x with
  | S754_finite s m e =>
      if (0 <=? e) && (10 ^ 21 <=? Z.pos m * 2 ^ e) then ToString x
      else
        let num := Z.pos m * 10 ^ Z.of_nat f * 2 ^ Z.max 0 e in
        let den := 2 ^ Z.max 0 (- e) in
        Digits s ((2 * num + den) / (2 * den)) f
  | S754_zero _ => Digits false 0 f
  | _ => ToString x
  end.

(** [parseFloat] reads the decimal back as the nearest double;
    [ToString] output reads back as the number it printed. *)
Definition parseFloat (s : FixedString) : float :=
  match s with
  | Digits negative n f =>
      let mag :=
        match n with
        | Z.pos p =>
            SF2Prim (SFdiv prec emax (S754_finite false p 0)
                           (S754_finite false (Z.to_pos (10 ^ Z.of_nat f)) 0))
        | _ => 0%float
        end in
      if negative then PrimFloat.opp mag else mag
  | ToString x => x
  end.

(** *** [Array.prototype.sort(comparefn)]

    The comparator returns a number, [None] standing for [NaN], which
    the sort takes for [+0].  For a comparator that is a consistent
    ordering the language fixes the result, the stable ascending order;
    for any other (an unreadable date makes the difference of two
    dates [NaN]) the order is left to the engine.  This is the sort of
    V8, the engine of Node and Chromium: it takes the run the array
    starts with, in order or strictly out of order and then reversed,
    and puts every further element in its place by binary search.
    (V8 cuts an array of 64 elements or more into several such runs
    and merges them; the merge is not written out, one run stands for
    it, with the same result for every consistent comparator.) *)
Section Sort.
Context {A : Type} (comparefn : A -> A -> option Z).

Definition SortCompare (x y : A) : Z := default 0 (comparefn x y).

(** The rest of the run after [previousElement], and what follows the
    run. *)
Fixpoint run_rest (isDescending : bool) (previousElement : A) (l : list A)
  : list A * list A :=
  match l with
  | [] => ([], [])
  | currentElement :: r =>
      let order := SortCompare currentElement previousElement in
      if (if isDescending then 0 <=? order else order <? 0) then ([], l)
      else let '(run, rest) := run_rest isDescending currentElement r in
           (currentElement :: run, rest)
  end.

Definition CountAndMakeRun (l : list A) : list A * list A :=
  match l with
  | elementHigh :: elementLow :: r =>
      let isDescending := SortCompare elementLow elementHigh <? 0 in
      let '(run, rest) := run_rest isDescending elementLow r in
      let run := elementHigh :: elementLow :: run in
      (if isDescending then reverse run else run, rest)
  | _ => (l, [])
  end.

(** The loop [while (left < right)] of the binary search; the interval
    halves at every turn, so [fuel] turns are enough for an interval of
    [fuel] places. *)
Fixpoint insertion_point (fuel : nat) (pivot : A) (run : list A) (left right : nat) : nat :=
  match fuel with
  | O => left
  | S fuel =>
      if (left <? right)%nat then
        let mid := (left + (right - left) / 2)%nat in
        match run !! mid with
        | Some y =>
            if SortCompare pivot y <? 0
            then insertion_point fuel pivot run left mid
            else insertion_point fuel pivot run (mid + 1)%nat right
        | None => left
        end
      else left
  end.

Definition BinaryInsert (run : list A) (pivot : A) : list A :=
  let left := insertion_point (length run) pivot run 0 (length run) in
  take left run ++ pivot :: drop left run.

Definition sort (l : list A) : list A :=
  let '(run, rest) := CountAndMakeRun l in
  fold_left BinaryInsert rest run.
End Sort.

(** *** [Math.ceil(a / b)] and [Math.round(a / b)] for integers [a] and
    a positive integer [b]: the quotient rounded up, and rounded to the
    nearest integer with halves going up. *)
Definition ceil_div (a b : Z) : Z := - ((- a) / b).

Definition round_div (a b : Z) : Z := (2 * a + b) / (2 * b).

(** *** [Date.prototype.toISOString] *)
Definition msPerDay : Z := 1000 * 60 * 60 * 24.

(** Year, month and day of a day number counted from 1970-01-01. *)
Definition civil_from_days (z : Z) : Z * Z * Z :=
  let z := z + 719468 in
  let era := z / 146097 in
  let doe := z - era * 146097 in
  let yoe := (doe - doe / 1460 + doe / 36524 - doe / 146096) / 365 in
  let y := yoe + era * 400 in
  let doy := doe - (365 * yoe + yoe / 4 - yoe / 100) in
  let mp := (5 * doy + 2) / 153 in
  let d := doy - (153 * mp + 2) / 5 + 1 in
  let m := if mp <? 10 then mp + 3 else mp - 9 in
  (if m <=? 2 then y + 1 else y, m, d).

Definition digit_char (d : Z) : ascii := ascii_of_nat (Z.to_nat (48 + d mod 10)).

(** [n] written with exactly [width] decimal digits. *)
Fixpoint pad (width : nat) (n : Z) : string :=
  match width with
  | O => EmptyString
  | S w => pad w (n / 10) ++ String (digit_char n) EmptyString
  end.

Definition toISOString (t : Z) : string :=
  let '(y, m, d) := civil_from_days (t / msPerDay) in
  let ms := t mod msPerDay in
  let year := if (0 <=? y) && (y <=? 9999) then pad 4 y
              else (if y <? 0 then "-" else "+") ++ pad 6 (Z.abs y) in
  year ++ "-" ++ pad 2 m ++ "-" ++ pad 2 d ++ "T"
       ++ pad 2 (ms / 3600000) ++ ":" ++ pad 2 (ms / 60000 mod 60) ++ ":"
       ++ pad 2 (ms / 1000 mod 60) ++ "." ++ pad 3 (ms mod 1000) ++ "Z".

End JS.

(** ** Market records of the upstream feed

    A record is a JSON object whose properties may be missing; the ones
    the code reads are listed here with the type the feed gives them. *)
Module Details.
Record t := mk {
  impliedApy : option float;
  underlyingApy : option float;
  aggregatedApy : option float;
  liquidity : option float
}.
End Details.

Record Market := {
  name : option string;
  proName : option string;
  symbol : option string;          (* underlyingAsset?.symbol *)
  expiry : option string;
  details : option Details.t;
  impliedApy : option float;
  underlyingApy : option float;
  liquidity_usd : option float;    (* liquidity?.usd *)
  address : option string
}.

(** [market.details?.f] *)
Definition details_field (f : Details.t -> option float) (m : Market) : option float :=
  d ← details m; f d.

(** [market.details?.impliedApy || market.impliedApy || 0], the
    expression the job and the dashboard share. *)
Definition resolve_impliedApy (m : Market) : float :=
  JS.or_num (JS.or_val (details_field Details.impliedApy m) (impliedApy m)) 0.

(** ** The persisted record and the storage service *)
Record Snapshot := {
  date : string;
  term_spread : float;
  front_month_apy : float;
  back_month_apy : float;
  front_expiry : string;
  back_expiry : string;
  underlying_apy : float;
  markets_count : nat
}.

Module Supabase.

(** The columns of a row other than its key. *)
Record Columns := {
  c_term_spread : float;
  c_front_month_apy : float;
  c_back_month_apy : float;
  c_front_expiry : string;
  c_back_expiry : string;
  c_underlying_apy : float;
  c_markets_count : nat
}.

Definition columns (r : Snapshot) : Columns :=
  {| c_term_spread := term_spread r;
     c_front_month_apy := front_month_apy r;
     c_back_month_apy := back_month_apy r;
     c_front_expiry := front_expiry r;
     c_back_expiry := back_expiry r;
     c_underlying_apy := underlying_apy r;
     c_markets_count := markets_count r |}.

Definition row (kv : string * Columns) : Snapshot :=
  {| date := kv.1;
     term_spread := c_term_spread kv.2;
     front_month_apy := c_front_month_apy kv.2;
     back_month_apy := c_back_month_apy kv.2;
     front_expiry := c_front_expiry kv.2;
     back_expiry := c_back_expiry kv.2;
     underlying_apy := c_underlying_apy kv.2;
     markets_count := c_markets_count kv.2 |}.

(** How a request to the service ends: a response with [ok], a
    response without [ok] carrying a text, or a rejected [fetch]. *)
Inductive Link := Up | Refusing (text : string) | Down (message : string).

Inductive Reply (A : Type) :=
| Ok (a : A)
| NotOk (text : string)
| Rejected (message : string).
Arguments Ok {A} a.
Arguments NotOk {A} text.
Arguments Rejected {A} message.

(** Modelled from the spec: the table [term_spread_history] lives in
    the storage service and its definition is not in the repository.
    It is keyed by [date] (one row per calendar date), and a [POST]
    with [Prefer: resolution=merge-duplicates] replaces the columns of
    the row that has the posted key, or adds the row. *)
Definition upsert (link : Link) (r : Snapshot) (tbl : gmap string Columns)
  : Reply unit * gmap string Columns :=
  match link with
  | Up => (Ok (), <[date r := columns r]> tbl)
  | Refusing text => (NotOk text, tbl)
  | Down message => (Rejected message, tbl)
  end.

(** [order=date.desc]: later dates first. *)
Definition date_desc (a b : string * Columns) : Prop :=
  String.leb b.1 a.1 = true.

Global Instance date_desc_dec a b : Decision (date_desc a b).
Proof. unfold date_desc. apply _. Defined.

(** All rows, newest first. *)
Definition rows (tbl : gmap string Columns) : list Snapshot :=
  row <$> merge_sort date_desc (map_to_list tbl).

(** Modelled from the spec: [select=*&order=date.desc&limit=n] answers
    with the [n] newest rows, newest first; a limit that is not a
    number from zero up (a negative one, [-Infinity]) is refused. *)
Definition select_desc (link : Link) (limit : JS.Integral) (tbl : gmap string Columns)
  : Reply (list Snapshot) :=
  match link with
  | Up =>
      match limit with
      | JS.Finite n =>
          if n <? 0 then NotOk "limit must not be negative"
          else Ok (take (Z.to_nat n) (rows tbl))
      | _ => NotOk "limit must be a number"
      end
  | Refusing text => NotOk text
  | Down message => Rejected message
  end.

End Supabase.

(** ** JSON bodies of the responses *)
Inductive JSON :=
| JNum (x : float)
| JLen (n : nat)                   (* an array length *)
| JStr (s : string)
| JBool (b : bool)
| JRows (rows : list Snapshot).

Record Response := {
  status : Z;
  body : list (string * JSON)
}.

(** [body.key], [None] when the body has no such property. *)
Fixpoint field (key : string) (o : list (string * JSON)) : option JSON :=
  match o with
  | [] => None
  | (k, v) :: r => if String.eqb k key then Some v else field key r
  end.

(** ** api/snapshot.js *)
Module Snapshot.

Record Chain := { id : Z; chain_name : string }.

Definition CHAINS : list Chain :=
  [ {| id := 1; chain_name := "Ethereum" |};
    {| id := 9745; chain_name := "Plasma" |} ].

(** What one per-chain request comes to: the promise chain rejects
    (network error, a body that is not JSON), or it yields [data] and
    the code reads [data.markets]. *)
Inductive Fetched :=
| Rejects (message : string)
| Data (markets : option (list Market)).

Record ChainResponse := {
  chain : string;
  chainId : Z;
  markets : list Market;
  error : option string
}.

(** A market with the chain it came from: [{ ...m, chain, chainId }]. *)
Record Tagged := {
  market : Market;
  on_chain : string;
  on_chainId : Z
}.

Definition respond (c : Chain) (f : Fetched) : ChainResponse :=
  match f with
  | Data ms =>
      {| chain := chain_name c; chainId := id c;
         markets := default [] ms; error := None |}
  | Rejects message =>
      {| chain := chain_name c; chainId := id c;
         markets := []; error := Some message |}
  end.

Section Handler.
(** [new Date(string)]: the time value, [None] for an invalid date. *)
Context (Date_parse : string -> option Z).

(** [new Date(a) - new Date(b)] *)
Definition date_diff (a b : option string) : option Z :=
  ta ← (a ≫= Date_parse); tb ← (b ≫= Date_parse); Some (ta - tb).

(** Lines 41-44: [(market.name || '').toLowerCase() === 'susde']. *)
Definition is_susde (m : Tagged) : bool :=
  String.eqb (JS.toLowerCase (JS.or_lit (name (market m)) "")) "susde".

Definition has_expiry (m : Tagged) : bool := JS.truthy_str (expiry (market m)).

(** [Math.ceil((new Date(m.expiry) - new Date()) / msPerDay)] *)
Definition days (now : Z) (m : Tagged) : option Z :=
  t ← (expiry (market m) ≫= Date_parse); Some (JS.ceil_div (t - now) JS.msPerDay).

Definition days_positive (now : Z) (m : Tagged) : bool :=
  match days now m with
  | Some d => 0 <? d
  | None => false
  end.

Definition allMarkets (responses : list ChainResponse) : list Tagged :=
  r ← responses;
  (fun m => {| market := m; on_chain := chain r; on_chainId := chainId r |})
    <$> markets r.

(** [Promise.all(CHAINS.map(...))]: one response per chain, in the
    order of [CHAINS]. *)
Definition responses (net : Z -> Fetched) : list ChainResponse :=
  (fun c => respond c (net (id c))) <$> CHAINS.

Definition susdeMarkets (net : Z -> Fetched) : list Tagged :=
  List.filter is_susde (allMarkets (responses net)).

Definition by_expiry (a b : Tagged) : option Z :=
  date_diff (expiry (market a)) (expiry (market b)).

(** Lines 54-60: keep the markets with an expiry, sort them by expiry,
    keep those with a positive number of days left. *)
Definition sorted (now : Z) (susdeMarkets : list Tagged) : list Tagged :=
  List.filter (days_positive now)
    (JS.sort by_expiry (List.filter has_expiry susdeMarkets)).

(** [m.details?.underlyingApy || m.underlyingApy || 0] *)
Definition resolve_underlyingApy (m : Market) : float :=
  JS.or_num (JS.or_val (details_field Details.underlyingApy m) (underlyingApy m)) 0.

Definition impliedYield (m : Tagged) : float :=
  (resolve_impliedApy (market m) * 100)%float.

Definition underlyingYield (m : Tagged) : float :=
  (resolve_underlyingApy (market m) * 100)%float.

(** The time value of a market's expiry, when it has one. *)
Definition expiry_time (m : Tagged) : option Z :=
  expiry (market m) ≫= Date_parse.

Definition round4 (x : float) : float := JS.parseFloat (JS.toFixed x 4).

Definition expiry_day (m : Tagged) : string :=
  JS.split_head "T" (default "" (expiry (market m))).

Definition today (now : Z) : string := JS.split_head "T" (JS.toISOString now).

(** Lines 73-89. *)
Definition record (now : Z) (frontMonth backMonth : Tagged) (count : nat) : Snapshot :=
  let frontApy := impliedYield frontMonth in
  let backApy := impliedYield backMonth in
  let termSpread := (backApy - frontApy)%float in
  let underlyingApy := underlyingYield frontMonth in
  {| date := today now;
     term_spread := round4 termSpread;
     front_month_apy := round4 frontApy;
     back_month_apy := round4 backApy;
     front_expiry := expiry_day frontMonth;
     back_expiry := expiry_day backMonth;
     underlying_apy := round4 underlyingApy;
     markets_count := count |}.

Definition failure (message : string) : Response :=
  {| status := 500; body := [("error", JStr message)] |}.

(** The handler (snapshot.js, lines 14-121): [net] is what each chain's
    request comes to, [now] the clock, read as one instant for the whole
    run, [link] how the storage request ends, [tbl] the table before the
    call.  The result is the response and the table after the call. *)
Definition handler (net : Z -> Fetched) (now : Z) (link : Supabase.Link)
           (tbl : gmap string Supabase.Columns)
  : Response * gmap string Supabase.Columns :=
  let susdeMarkets := susdeMarkets net in
  if (length susdeMarkets <? 2)%nat then
    ({| status := 200;
        body := [("message", JStr "Not enough sUSDe markets to calculate spread");
                 ("marketsFound", JLen (length susdeMarkets))] |}, tbl)
  else
    let sorted := sorted now susdeMarkets in
    if (length sorted <? 2)%nat then
      ({| status := 200;
          body := [("message", JStr "Not enough valid sUSDe markets");
                   ("validMarkets", JLen (length sorted))] |}, tbl)
    else
      match sorted !! 0%nat, sorted !! (length sorted - 1)%nat with
      | Some frontMonth, Some backMonth =>
          let record := record now frontMonth backMonth (length sorted) in
          match Supabase.upsert link record tbl with
          | (Supabase.Ok _, tbl') =>
              ({| status := 200;
                  body := [("success", JBool true);
                           ("date", JStr (date record));
                           ("term_spread", JNum (term_spread record));
                           ("front_apy", JNum (front_month_apy record));
                           ("back_apy", JNum (back_month_apy record));
                           ("markets", JLen (length sorted))] |}, tbl')
          | (Supabase.NotOk text, tbl') =>
              (failure ("Supabase error: " ++ text), tbl')
          | (Supabase.Rejected message, tbl') => (failure message, tbl')
          end
      | _, _ => (failure "Cannot read properties of undefined", tbl)
      end.
End Handler.

End Snapshot.

(** ** The history endpoint *)
Module History.

(** [parseInt(req.query.days) || 90], then [Math.min(days, 365)]. *)
Definition limitedDays (query_days : option string) : JS.Integral :=
  let days := JS.or_int (JS.parseInt query_days) 90 in
  JS.min days 365.

(** [req.method] and [req.query.days] are the request; [link] and
    [tbl] are the storage service. *)
Definition handler (method : string) (query_days : option string)
           (link : Supabase.Link) (tbl : gmap string Supabase.Columns) : Response :=
  if String.eqb method "OPTIONS" then {| status := 200; body := [] |}
  else
    match Supabase.select_desc link (limitedDays query_days) tbl with
    | Supabase.Ok data =>
        let chronological := reverse data in
        {| status := 200;
           body := [("success", JBool true);
                    ("count", JLen (length chronological));
                    ("data", JRows chronological)] |}
    | Supabase.NotOk text =>
        {| status := 500; body := [("error", JStr ("Supabase error: " ++ text))] |}
    | Supabase.Rejected message =>
        {| status := 500; body := [("error", JStr message)] |}
    end.

End History.

(** ** src/App.js: the dashboard *)
Module App.

Inductive Maturity :=
| Expired
| D (days : Z)                   (* `${days}D` *)
| M (months : option Z).         (* `${Math.round(days / 30)}M` *)

(** One point of the term structure.  The locale-formatted [expiry]
    label is display text and is left out. *)
Record Point := {
  maturity : Maturity;
  days : option Z;               (* [None] is [NaN] *)
  impliedYield : float;
  underlyingYield : float;
  tvl : float;
  p_address : option string;
  p_name : option string
}.

(** The component state the market processing writes.  The simulated
    history series is random display filler and is left out. *)
Record State := {
  termStructure : list Point;
  termSpread : float;
  underlyingYieldText : JS.FixedString;
  error : option string
}.

Definition initial : State :=
  {| termStructure := []; termSpread := 0%float;
     underlyingYieldText := JS.ToString 0%float; error := None |}.

Definition formatMaturity (days : option Z) : Maturity :=
  match days with
  | Some d =>
      if d <=? 0 then Expired
      else if d <=? 30 then D d
      else M (Some (JS.round_div d 30))
  | None => M None
  end.

(** The filter of [fetchPendleMarkets] (App.js, lines 41-45). *)
Definition is_susde (market : Market) : bool :=
  let name := JS.toLowerCase (JS.or_lit (JS.or_str (name market) (proName market)) "") in
  let symbol := JS.toLowerCase (JS.or_lit (symbol market) "") in
  JS.includes name "susde" || JS.includes symbol "susde".

(** The broader filter tried when no market passes (lines 53-56). *)
Definition is_ethena (market : Market) : bool :=
  let name := JS.toLowerCase (JS.or_lit (name market) "") in
  JS.includes name "usde" || JS.includes name "ethena".

Section Process.
Context (Date_parse : string -> option Z).

Definition by_expiry (a b : Market) : option Z :=
  ta ← (expiry a ≫= Date_parse); tb ← (expiry b ≫= Date_parse); Some (ta - tb).

(** Lines 92-94 with [resolve_impliedApy]:
    [details?.underlyingApy || underlyingApy || details?.aggregatedApy || 0]
    and [details?.liquidity || liquidity?.usd || 0]. *)
Definition resolve_underlyingApy (market : Market) : float :=
  JS.or_num (JS.or_val (JS.or_val (details_field Details.underlyingApy market)
                                  (underlyingApy market))
                       (details_field Details.aggregatedApy market)) 0.

Definition resolve_tvl (market : Market) : float :=
  JS.or_num (JS.or_val (details_field Details.liquidity market) (liquidity_usd market)) 0.

Definition point (now : Z) (market : Market) : Point :=
  let daysToExpiry :=
    t ← (expiry market ≫= Date_parse); Some (JS.ceil_div (t - now) JS.msPerDay) in
  {| maturity := formatMaturity daysToExpiry;
     days := daysToExpiry;
     impliedYield := (resolve_impliedApy market * 100)%float;
     underlyingYield := (resolve_underlyingApy market * 100)%float;
     tvl := resolve_tvl market;
     p_address := address market;
     p_name := JS.or_str (name market) (proName market) |}.

(** Line 109: [s.days > 0 && s.impliedYield > 0]. *)
Definition valid (s : Point) : bool :=
  match days s with
  | Some d => (0 <? d) && PrimFloat.ltb 0 (impliedYield s)
  | None => false
  end.

Definition setTermStructure (v : list Point) (st : State) : State :=
  {| termStructure := v; termSpread := termSpread st;
     underlyingYieldText := underlyingYieldText st; error := error st |}.

Definition setTermSpread (v : float) (st : State) : State :=
  {| termStructure := termStructure st; termSpread := v;
     underlyingYieldText := underlyingYieldText st; error := error st |}.

Definition setUnderlyingYield (v : JS.FixedString) (st : State) : State :=
  {| termStructure := termStructure st; termSpread := termSpread st;
     underlyingYieldText := v; error := error st |}.

Definition setError (v : option string) (st : State) : State :=
  {| termStructure := termStructure st; termSpread := termSpread st;
     underlyingYieldText := underlyingYieldText st; error := v |}.

Definition sorted (markets : list Market) : list Market :=
  JS.sort by_expiry (List.filter (fun m => JS.truthy_str (expiry m)) markets).

Definition validStructure (now : Z) (markets : list Market) : list Point :=
  List.filter valid (point now <$> sorted markets).

(** Lines 76-135, the state setters applied in the order of the calls. *)
Definition processMarkets (now : Z) (markets : list Market) (st : State) : State :=
  let sorted := sorted markets in
  if (length sorted =? 0)%nat then st
  else
    let validStructure := List.filter valid (point now <$> sorted) in
    if (length validStructure =? 0)%nat then
      setError (Some "No valid markets with positive days to expiry") st
    else
      let st := setTermStructure validStructure st in
      let st :=
        if (2 <=? length validStructure)%nat then
          match validStructure !! 0%nat,
                validStructure !! (length validStructure - 1)%nat with
          | Some front, Some back =>
              let frontMonth := impliedYield front in
              let backMonth := impliedYield back in
              setTermSpread (JS.parseFloat (JS.toFixed (backMonth - frontMonth) 2)) st
          | _, _ => st
          end
        else if (length validStructure =? 1)%nat then setTermSpread 0%float st
        else st in
      match validStructure !! 0%nat with
      | Some first =>
          if JS.truthy_num (underlyingYield first)
          then setUnderlyingYield (JS.toFixed (underlyingYield first) 2) st
          else st
      | None => st
      end.

(** What the request to the feed comes to: a rejected [fetch], a
    response without [ok], or [data] with its two candidate keys. *)
Inductive Fetched :=
| Rejects (message : string)
| NotOk (code : nat)
| Data (markets results : option (list Market)).

Definition list_or (a b : option (list Market)) : option (list Market) :=
  match a with Some _ => a | None => b end.

Definition fetchPendleMarkets (api : Fetched) (now : Z) (st : State) : State :=
  let st := setError None st in
  match api with
  | Rejects message => setError (Some message) st
  | NotOk code =>
      setError (Some ("API Error: " ++ NilEmpty.string_of_uint (Nat.to_uint code))) st
  | Data markets results =>
      let allMarkets := default [] (list_or markets results) in
      if (length allMarkets =? 0)%nat then
        setError (Some "No markets data received from API") st
      else
        let susdeMarkets := List.filter is_susde allMarkets in
        if (length susdeMarkets =? 0)%nat then
          let availableNames :=
            String.concat ", " ((fun m => default "" (name m)) <$> take 10 allMarkets) in
          let st := setError (Some ("No sUSDe markets found. Available: "
                                    ++ availableNames ++ "...")) st in
          let ethenaMarkets := List.filter is_ethena allMarkets in
          if (0 <? length ethenaMarkets)%nat then processMarkets now ethenaMarkets st
          else st
        else processMarkets now susdeMarkets st
  end.
End Process.

(** Lines 168-178: the colour and the label of the regime, read off the
    displayed spread. *)
Definition getRegimeColor (termSpread : float) : string :=
  if PrimFloat.ltb 0 termSpread then "#10b981"
  else if PrimFloat.ltb termSpread (-5) then "#ef4444"
  else "#f59e0b".

Definition getRegimeLabel (termSpread : float) : string :=
  if PrimFloat.ltb 0 termSpread then "CONTANGO"
  else if PrimFloat.ltb termSpread (-5) then "STEEP BACKWARDATION"
  else "BACKWARDATION".

(** Lines 180-201. *)
Record Signal := {
  text : string;
  color : string;
  probability : string
}.

Definition getSignal (termSpread : float) : Signal :=
  if PrimFloat.ltb 0 termSpread then
    {| text := "BULLISH"; color := "#10b981";
       probability := "80%+ prob. of positive returns (90d)" |}
  else if PrimFloat.ltb termSpread (-7.5) then
    {| text := "BEARISH"; color := "#ef4444";
       probability := "<20% prob. of positive returns (90d)" |}
  else if PrimFloat.ltb termSpread (-5) then
    {| text := "CAUTIOUS"; color := "#f97316";
       probability := "~40% prob. of positive returns (90d)" |}
  else
    {| text := "NEUTRAL"; color := "#f59e0b";
       probability := "~50% prob. of positive returns (90d)" |}.

End App.

(** ** An instance of [Date_parse]

    The date-time string format of the language in UTC:
    [YYYY-MM-DD], [YYYY-MM-DDTHH:mmZ], [YYYY-MM-DDTHH:mm:ssZ] and
    [YYYY-MM-DDTHH:mm:ss.sssZ], the hour [24] standing for the end of
    the day.  On a string outside the format an engine falls back on
    heuristics of its own; here such a string is an invalid date.  The
    samples below are in the 24-character form the feed delivers, and
    the one unreadable sample is a word that no heuristic reads. *)
Module IsoDate.

Definition days_from_civil (y m d : Z) : Z :=
  let y := if m <=? 2 then y - 1 else y in
  let era := y / 400 in
  let yoe := y - era * 400 in
  let mp := (m + 9) mod 12 in
  let doy := (153 * mp + 2) / 5 + d - 1 in
  let doe := yoe * 365 + yoe / 4 - yoe / 100 + doy in
  era * 146097 + doe - 719468.

(** The number written by the [len] decimal digits at [pos]. *)
Definition number (s : string) (pos len : nat) : option Z :=
  let part := String.substring pos len s in
  if (String.length part =? len)%nat
  then JS.digits_prefix 10 part None ≫= fun n =>
       if String.eqb (JS.pad len n) part then Some n else None
  else None.

Definition sep (s : string) (pos : nat) (c : ascii) : bool :=
  match String.get pos s with
  | Some a => Ascii.eqb a c
  | None => false
  end.

Definition day_ms (s : string) : option Z :=
  y ← number s 0 4; m ← number s 5 2; d ← number s 8 2;
  if sep s 4 "-" && sep s 7 "-" && (1 <=? m) && (m <=? 12) && (1 <=? d) && (d <=? 31)
  then Some (days_from_civil y m d * JS.msPerDay) else None.

(** The time within the day; [24:00:00.000] is allowed. *)
Definition time_ms (h mi sec ms : Z) : option Z :=
  if (h <=? 23) && (mi <=? 59) && (sec <=? 59)
     || (h =? 24) && (mi =? 0) && (sec =? 0) && (ms =? 0)
  then Some (h * 3600000 + mi * 60000 + sec * 1000 + ms) else None.

Definition parse (s : string) : option Z :=
  if (String.length s =? 10)%nat then day_ms s
  else if (String.length s =? 17)%nat then
    t ← day_ms s; h ← number s 11 2; mi ← number s 14 2;
    if sep s 10 "T" && sep s 13 ":" && sep s 16 "Z"
    then t' ← time_ms h mi 0 0; Some (t + t') else None
  else if (String.length s =? 20)%nat then
    t ← day_ms s; h ← number s 11 2; mi ← number s 14 2; sec ← number s 17 2;
    if sep s 10 "T" && sep s 13 ":" && sep s 16 ":" && sep s 19 "Z"
    then t' ← time_ms h mi sec 0; Some (t + t') else None
  else if (String.length s =? 24)%nat then
    t ← day_ms s;
    h ← number s 11 2; mi ← number s 14 2; sec ← number s 17 2; ms ← number s 20 3;
    if sep s 10 "T" && sep s 13 ":" && sep s 16 ":" && sep s 19 "." && sep s 23 "Z"
    then t' ← time_ms h mi sec ms; Some (t + t') else None
  else None.

End IsoDate.

(** ** Sample inputs *)

(** A market with a name, an expiry and a top-level implied rate. *)
Definition quoted (n e : string) (apy : float) : Market :=
  {| name := Some n; proName := None; symbol := None; expiry := Some e;
     details := None; impliedApy := Some apy; underlyingApy := None;
     liquidity_usd := None; address := None |}.

(** 2026-01-01T00:00:00.000Z *)
Definition asOf : Z := 1767225600000.

(** Two maturities on Ethereum, ten and one hundred and eighty days
    after [asOf]; nothing on the other chain. *)
Definition two_maturities (chainId : Z) : Snapshot.Fetched :=
  if chainId =? 1 then
    Snapshot.Data (Some [ quoted "sUSDe" "2026-01-11T00:00:00.000Z" 0.04;
                          quoted "sUSDe" "2026-06-30T00:00:00.000Z" 0.01 ])
  else Snapshot.Data (Some []).

(** Three sUSDe markets on Ethereum, the second with an expiry that is
    no date: the feed lists the one that runs longest first. *)
Definition one_unreadable (chainId : Z) : Snapshot.Fetched :=
  if chainId =? 1 then
    Snapshot.Data (Some [ quoted "sUSDe" "2026-06-30T00:00:00.000Z" 0.01;
                          quoted "sUSDe" "soon" 0.02;
                          quoted "sUSDe" "2026-01-11T00:00:00.000Z" 0.04 ])
  else Snapshot.Data (Some []).

(** One market that expired the day before [asOf] and one that is
    still running. *)
Definition one_expired (chainId : Z) : Snapshot.Fetched :=
  if chainId =? 1 then
    Snapshot.Data (Some [ quoted "sUSDe" "2025-12-31T00:00:00.000Z" 0.05;
                          quoted "sUSDe" "2026-03-26T00:00:00.000Z" 0.03 ])
  else Snapshot.Data (Some []).

(** The request for Ethereum fails; Plasma answers with three markets. *)
Definition one_failing (chainId : Z) : Snapshot.Fetched :=
  if chainId =? 1 then Snapshot.Rejects "fetch failed"
  else
    Snapshot.Data (Some [ quoted "sUSDe" "2026-02-26T00:00:00.000Z" 0.05;
                          quoted "sUSDe" "2026-05-28T00:00:00.000Z" 0.045;
                          quoted "sUSDe" "2026-09-24T00:00:00.000Z" 0.04 ]).

(** A snapshot of a given day and spread. *)
Definition snapshot_of (day : string) (spread : float) : Snapshot :=
  {| date := day; term_spread := spread; front_month_apy := 4;
     back_month_apy := (4 + spread)%float; front_expiry := "2026-03-26";
     back_expiry := "2026-09-24"; underlying_apy := 5; markets_count := 3 |}.

(** Three days of history, written out of order. *)
Definition three_days : gmap string Supabase.Columns :=
  let t1 := (Supabase.upsert Supabase.Up (snapshot_of "2026-01-02" (-2)) ∅).2 in
  let t2 := (Supabase.upsert Supabase.Up (snapshot_of "2025-12-31" (-3)) t1).2 in
  (Supabase.upsert Supabase.Up (snapshot_of "2026-01-01" (-1)) t2).2.

(** A record whose nested implied rate is there and is [0], with a
    top-level implied rate of [0.05]. *)
Definition zero_nested : Market :=
  {| name := Some "sUSDe"; proName := None; symbol := None;
     expiry := Some "2026-03-26T00:00:00.000Z";
     details := Some {| Details.impliedApy := Some 0%float;
                        Details.underlyingApy := None;
                        Details.aggregatedApy := None;
                        Details.liquidity := None |};
     impliedApy := Some 0.05%float; underlyingApy := None;
     liquidity_usd := None; address := None |}.

(** The same record with the two values the other way round: a nested
    implied rate of [0.05] and a top-level one of [0]. *)
Definition nested_first : Market :=
  {| name := Some "sUSDe"; proName := None; symbol := None;
     expiry := Some "2026-03-26T00:00:00.000Z";
     details := Some {| Details.impliedApy := Some 0.05%float;
                        Details.underlyingApy := None;
                        Details.aggregatedApy := None;
                        Details.liquidity := None |};
     impliedApy := Some 0%float; underlyingApy := None;
     liquidity_usd := None; address := None |}.

(** A single market that runs out on 2025-12-31, and the dashboard as
    a refresh thirty days before [asOf] leaves it. *)
Definition running_out : list Market :=
  [quoted "sUSDe" "2025-12-31T00:00:00.000Z" 0.05].

Definition shown_before : App.State :=
  App.processMarkets IsoDate.parse (asOf - 30 * JS.msPerDay) running_out App.initial.

(** ** Notions the statements below are phrased in *)

(** The markets one chain's request hands to the job. *)
Definition delivered (f : Snapshot.Fetched) : list Market :=
  match f with
  | Snapshot.Data (Some ms) => ms
  | _ => []
  end.

(** The same network with chain [c] answering with no markets. *)
Definition silenced (c : Z) (net : Z -> Snapshot.Fetched) (chainId : Z) : Snapshot.Fetched :=
  if chainId =? c then Snapshot.Data (Some []) else net chainId.

(** [s] contains [t] as a substring, letter case aside. *)
Definition contains_ci (s t : string) : Prop :=
  ∃ pre mid post : string,
    s = (pre ++ mid ++ post)%string ∧ JS.toLowerCase mid = JS.toLowerCase t.

(** [s] is [t], letter case aside. *)
Definition eq_ci (s t : string) : Prop := JS.toLowerCase s = JS.toLowerCase t.

(** A resolution by truthiness: the first source whose value is a
    number other than [0], [-0] and [NaN], else [0]. *)
Fixpoint first_truthy (sources : list (option float)) : float :=
  match sources with
  | [] => 0%float
  | v :: rest => if JS.truthy v then default 0%float v else first_truthy rest
  end.

(** A resolution by presence: the first source that is there, else [0]. *)
Fixpoint first_present (sources : list (option float)) : float :=
  match sources with
  | [] => 0%float
  | Some x :: _ => x
  | None :: rest => first_present rest
  end.

(** A day count as a request writes it: the decimal numeral of [n]. *)
Definition decimal (n : nat) : string := NilEmpty.string_of_uint (Nat.to_uint n).

(** The feed brought no list of markets to work on: the request failed,
    or the list the code picks is missing or empty. *)
Definition no_markets (api : App.Fetched) : Prop :=
  match api with
  | App.Data markets results => default [] (App.list_or markets results) = []
  | _ => True
  end.

(** A displayed point is in order: it has days left and a positive
    implied yield, and its label is the one of its days, a count of days
    or of months. *)
Definition shown_ok (p : App.Point) : Prop :=
  (∃ d, App.days p = Some d ∧ 0 < d) ∧
  PrimFloat.ltb 0 (App.impliedYield p) = true ∧
  App.maturity p = App.formatMaturity (App.days p) ∧
  App.maturity p ≠ App.Expired ∧ App.maturity p ≠ App.M None.

(** The displayed spread is the one of the displayed structure: zero
    with fewer than two points, else the implied yield of the last
    point minus that of the first, to two decimals. *)
Definition spread_matches (st : App.State) : Prop :=
  match App.termStructure st with
  | [] | [_] => App.termSpread st = 0%float
  | front :: rest =>
      ∃ back, last rest = Some back ∧
              App.termSpread st
              = JS.parseFloat (JS.toFixed (App.impliedYield back - App.impliedYield front) 2)
  end.

(** The integer, the infinity or [NaN] that a binary64 number of
    integral value stands for. *)
Definition integral_of (x : spec_float) : JS.Integral :=
  match x with
  | S754_zero _ => JS.Finite 0
  | S754_infinity negative => JS.Infinity negative
  | S754_nan => JS.NaN
  | S754_finite negative m e =>
      JS.Finite ((if negative then -1 else 1)
                 * (if 0 <=? e then Z.pos m * 2 ^ e else Z.pos m / 2 ^ (- e)))
  end.

(** A market of the feed as the job sees it on a chain. *)
Definition on_chain (c : string) (cid : Z) (m : Market) : Snapshot.Tagged :=
  {| Snapshot.market := m; Snapshot.on_chain := c; Snapshot.on_chainId := cid |}.

(** Ascending order of an integer key. *)
Definition key_le {A : Type} (key : A -> Z) (a b : A) : Prop := key a <= key b.

(** Ascending dates, in the order of the store's key. *)
Definition date_asc (a b : Snapshot) : Prop := String.leb (date a) (date b) = true.

(** * Facts about the built-ins *)

Example toISOString_sample :
  JS.toISOString 1767225600123 = "2026-01-01T00:00:00.123Z".
Proof. vm_compute. reflexivity. Qed.

Example parse_sample :
  IsoDate.parse "2026-01-01T00:00:00.123Z" = Some 1767225600123 ∧
  IsoDate.parse "2026-01-01" = Some 1767225600000 ∧
  IsoDate.parse "2026-01-01T00:00Z" = Some 1767225600000 ∧
  IsoDate.parse "2026-01-01T00:00:00Z" = Some 1767225600000 ∧
  IsoDate.parse "2025-12-31T24:00:00.000Z" = Some 1767225600000 ∧
  IsoDate.parse "2025-12-31T24:00:00.001Z" = None ∧
  IsoDate.parse "2026-02-31" = IsoDate.parse "2026-03-03".
Proof. vm_compute. repeat split. Qed.

(** An unreadable date among the sorted elements: its comparisons give
    [NaN], the run the array starts with is reversed, and the rest goes
    in by binary search. *)
Example sort_samples :
  let by_date a b := ta ← IsoDate.parse a; tb ← IsoDate.parse b; Some (ta - tb) in
  JS.sort by_date ["2026-03-01"; "2026-01-01"; "soon"; "2026-02-01"]
  = ["2026-01-01"; "2026-02-01"; "2026-03-01"; "soon"] ∧
  JS.sort by_date ["2026-06-30"; "soon"; "2026-01-11"]
  = ["2026-06-30"; "soon"; "2026-01-11"] ∧
  JS.sort by_date ["2026-03-01"; "2026-02-01"; "2026-01-01"; "2026-02-01"]
  = ["2026-01-01"; "2026-02-01"; "2026-02-01"; "2026-03-01"].
Proof. vm_compute. repeat split. Qed.

Example parse_invalid : IsoDate.parse "soon" = None.
Proof. reflexivity. Qed.

Example toFixed_samples :
  JS.toFixed 1.005 2 = JS.Digits false 100 2 ∧
  JS.toFixed 8.345 2 = JS.Digits false 835 2 ∧
  JS.toFixed (-1.5) 0 = JS.Digits true 2 0 ∧
  JS.toFixed (-0.00001) 4 = JS.Digits true 0 4 ∧
  JS.toFixed 1e21 2 = JS.ToString 1e21 ∧
  JS.parseFloat (JS.toFixed (0.07 * 100) 4) = 7%float ∧
  JS.parseFloat (JS.Digits false 25 1) = 2.5%float.
Proof. vm_compute. repeat split. Qed.

Example parseInt_samples :
  JS.parseInt (Some "1000") = JS.Finite 1000 ∧
  JS.parseInt (Some " 42 days") = JS.Finite 42 ∧
  JS.parseInt (Some "-7") = JS.Finite (-7) ∧ JS.parseInt (Some "0x1F") = JS.Finite 31 ∧
  JS.parseInt (Some "days") = JS.NaN ∧ JS.parseInt None = JS.NaN ∧
  JS.parseInt (Some "9007199254740993") = JS.Finite 9007199254740992 ∧
  JS.parseInt (Some "-9007199254740993") = JS.Finite (-9007199254740992) ∧
  JS.parseInt (Some (NilEmpty.string_of_uint (Pos.to_uint (10 ^ 400)))) = JS.Infinity false ∧
  JS.parseInt (Some (String (ascii_of_nat 194) (String (ascii_of_nat 160) "5")))
  = JS.Finite 5 ∧
  JS.parseInt (Some (String (ascii_of_nat 226)
                       (String (ascii_of_nat 128) (String (ascii_of_nat 131) " -0x10"))))
  = JS.Finite (-16) ∧
  JS.parseInt (Some "-0") = JS.Finite 0 ∧ JS.parseInt (Some "0x") = JS.NaN.
Proof. vm_compute. repeat split. Qed.

(** The rounding of [parseInt] is the rounding to nearest of binary64
    as the Standard Library computes it, here at integers on both sides
    of [2^53], at ties, and at the largest finite number. *)
Example round64_is_binary64 :
  Forall (fun z => integral_of (SpecFloat.binary_normalize prec emax z 0 false)
                   = JS.round64 z)
         [0; 365; -5; 2 ^ 53 - 1; 2 ^ 53; 2 ^ 53 + 1; 2 ^ 53 + 2; 2 ^ 53 + 3;
          - (2 ^ 53 + 1); 2 ^ 54 + 2; 2 ^ 54 + 6; 10 ^ 21 + 1; 10 ^ 30;
          2 ^ 1024 - 2 ^ 970 - 1; 2 ^ 1024 - 2 ^ 970; - (10 ^ 400)].
Proof. repeat (constructor; [vm_compute; reflexivity|]). constructor. Qed.

(** ** Rounding *)

(** The integer [toFixed] prints is within a half of the exact value of
    the double times [10^f]: with [|x| * 10^f = num / den],
    [num/den - 1/2 < n <= num/den + 1/2]. *)
Lemma toFixed_nearest (x : float) (f : nat) (s : bool) (m : positive) (e : Z) :
  Prim2SF x = S754_finite s m e →
  e < 0 ∨ Z.pos m * 2 ^ e < 10 ^ 21 →
  let num := Z.pos m * 10 ^ Z.of_nat f * 2 ^ Z.max 0 e in
  let den := 2 ^ Z.max 0 (- e) in
  ∃ n, JS.toFixed x f = JS.Digits s n f ∧
       2 * num - den < 2 * n * den <= 2 * num + den.
Proof.
  intros Hx Hsmall num den. unfold JS.toFixed. rewrite Hx.
  assert (Hgate : (0 <=? e) && (10 ^ 21 <=? Z.pos m * 2 ^ e) = false).
  { destruct Hsmall as [He|Hm].
    - apply andb_false_iff. left. apply Z.leb_gt. lia.
    - apply andb_false_iff. right. apply Z.leb_gt. lia. }
  rewrite Hgate. fold num den.
  exists ((2 * num + den) / (2 * den)). split; [done|].
  assert (0 < den) by (apply Z.pow_pos_nonneg; lia).
  pose proof (Z.mul_div_le (2 * num + den) (2 * den) ltac:(lia)).
  pose proof (Z.mul_succ_div_gt (2 * num + den) (2 * den) ltac:(lia)).
  lia.
Qed.

(** ** Sorting *)
Section SortFacts.
Local Open Scope list_scope.
Context {A : Type} (comparefn : A -> A -> option Z).

Lemma run_rest_app (d : bool) (p : A) (l run rest : list A) :
  JS.run_rest comparefn d p l = (run, rest) → l = run ++ rest.
Proof.
  revert p run rest. induction l as [|c r IH]; intros p run rest; simpl.
  - by intros [= <- <-].
  - destruct (if d then _ else _); [by intros [= <- <-]|].
    destruct (JS.run_rest comparefn d c r) as [run' rest'] eqn:Hr.
    intros [= <- <-]. simpl. f_equal. by apply (IH c).
Qed.

Lemma CountAndMakeRun_Permutation (l run rest : list A) :
  JS.CountAndMakeRun comparefn l = (run, rest) → run ++ rest ≡ₚ l.
Proof.
  unfold JS.CountAndMakeRun. destruct l as [|h [|lo r]].
  - by intros [= <- <-].
  - by intros [= <- <-].
  - destruct (JS.run_rest comparefn _ lo r) as [run' rest'] eqn:Hr.
    apply run_rest_app in Hr as ->. intros [= <- <-].
    destruct (JS.SortCompare comparefn lo h <? 0); [|done].
    by rewrite reverse_Permutation.
Qed.

Lemma BinaryInsert_Permutation (run : list A) (pivot : A) :
  JS.BinaryInsert comparefn run pivot ≡ₚ pivot :: run.
Proof.
  unfold JS.BinaryInsert.
  rewrite <- Permutation_middle. by rewrite take_drop.
Qed.

Lemma fold_BinaryInsert_Permutation (rest run : list A) :
  fold_left (JS.BinaryInsert comparefn) rest run ≡ₚ run ++ rest.
Proof.
  revert run. induction rest as [|x rest IH]; intros run; simpl.
  - by rewrite app_nil_r.
  - rewrite IH, BinaryInsert_Permutation. by rewrite <- Permutation_middle.
Qed.

Lemma sort_Permutation (l : list A) : JS.sort comparefn l ≡ₚ l.
Proof.
  unfold JS.sort. destruct (JS.CountAndMakeRun comparefn l) as [run rest] eqn:Hrun.
  rewrite fold_BinaryInsert_Permutation. by apply CountAndMakeRun_Permutation.
Qed.

Lemma sort_elem_of (x : A) (l : list A) : x ∈ JS.sort comparefn l ↔ x ∈ l.
Proof. by rewrite sort_Permutation. Qed.

Lemma sort_length (l : list A) : length (JS.sort comparefn l) = length l.
Proof. by rewrite sort_Permutation. Qed.

End SortFacts.

Section SortedFacts.
Local Open Scope list_scope.
Context {A : Type} (comparefn : A -> A -> option Z) (key : A -> Z).

Local Instance key_le_refl : Reflexive (key_le key).
Proof. intros x. unfold key_le. lia. Qed.

Local Instance key_le_trans : Transitive (key_le key).
Proof. intros x y z. unfold key_le. lia. Qed.

Lemma sorted_lookup (l : list A) (i j : nat) (x y : A) :
  StronglySorted (key_le key) l → (i <= j)%nat →
  l !! i = Some x → l !! j = Some y → key x <= key y.
Proof.
  intros Hs. revert i j. induction Hs as [|a l Hs IH Ha]; intros i j Hij Hx Hy; [done|].
  destruct i as [|i], j as [|j]; simpl in *; simplify_eq; try lia.
  - rewrite Forall_forall in Ha. apply Ha. by eapply list_elem_of_lookup_2.
  - apply (IH i j); [lia|done..].
Qed.

Lemma reverse_descending (l : list A) :
  StronglySorted (fun a b => key b < key a) l →
  StronglySorted (key_le key) (reverse l).
Proof.
  induction 1 as [|a l Hs IH Ha]; [constructor|].
  rewrite reverse_cons. apply StronglySorted_app. split; [|split].
  - intros x1 x2 Hx1 ->%list_elem_of_singleton. rewrite elem_of_reverse in Hx1.
    rewrite Forall_forall in Ha. unfold key_le. specialize (Ha _ Hx1). simpl in Ha. lia.
  - done.
  - repeat constructor.
Qed.

(** The position found by the binary search, in a sorted run. *)
Lemma insertion_point_spec (fuel : nat) (pivot : A) (run : list A) (left right : nat) :
  StronglySorted (key_le key) run →
  (∀ y, y ∈ run → comparefn pivot y = Some (key pivot - key y)) →
  (left <= right <= length run)%nat → (right - left <= fuel)%nat →
  (∀ j y, (j < left)%nat → run !! j = Some y → key y <= key pivot) →
  (∀ j y, (right <= j)%nat → run !! j = Some y → key pivot < key y) →
  let i := JS.insertion_point comparefn fuel pivot run left right in
  (i <= length run)%nat ∧
  (∀ j y, (j < i)%nat → run !! j = Some y → key y <= key pivot) ∧
  (∀ j y, (i <= j)%nat → run !! j = Some y → key pivot < key y).
Proof.
  intros Hs Hcmp. revert left right.
  induction fuel as [|fuel IH]; intros left right Hlr Hfuel Hleft Hright;
    cbn [JS.insertion_point].
  - assert (left = right) as -> by lia. split; [lia|]. split; [done|done].
  - destruct (Nat.ltb_spec left right) as [Hlt|Hge].
    2: { assert (left = right) as -> by lia. split; [lia|]. split; [done|done]. }
    set (mid := (left + (right - left) / 2)%nat).
    assert (Hmid : (left <= mid < right)%nat).
    { subst mid. split; [lia|].
      assert ((right - left) / 2 < right - left)%nat by (apply Nat.div_lt; lia). lia. }
    destruct (lookup_lt_is_Some_2 run mid) as [y Hy]; [lia|].
    fold mid. rewrite Hy.
    unfold JS.SortCompare. rewrite (Hcmp y) by (by eapply list_elem_of_lookup_2).
    cbn [default from_option id].
    destruct (Z.ltb_spec (key pivot - key y) 0) as [Hbelow|Habove].
    + apply IH; [lia|lia|done|].
      intros j z Hj Hz. pose proof (sorted_lookup run mid j y z Hs Hj Hy Hz). lia.
    + apply IH; [lia|lia| |done].
      intros j z Hj Hz.
      assert (key z <= key y) by (apply (sorted_lookup run j mid z y Hs); [lia|done..]).
      lia.
Qed.

Lemma BinaryInsert_cases (run : list A) (pivot : A) :
  StronglySorted (key_le key) run →
  (∀ y, y ∈ run → comparefn pivot y = Some (key pivot - key y)) →
  ∃ before after,
    run = before ++ after ∧
    JS.BinaryInsert comparefn run pivot = before ++ pivot :: after ∧
    (∀ y, y ∈ before → key y <= key pivot) ∧
    (∀ y, y ∈ after → key pivot < key y).
Proof.
  intros Hs Hcmp. unfold JS.BinaryInsert.
  destruct (insertion_point_spec (length run) pivot run 0 (length run) Hs Hcmp)
    as (Hi & Hbefore & Hafter); [lia|lia|intros; lia| |].
  { intros j y Hj Hy. apply lookup_lt_Some in Hy. lia. }
  set (i := JS.insertion_point comparefn (length run) pivot run 0 (length run)) in *.
  exists (take i run), (drop i run). split; [by rewrite take_drop|]. split; [done|]. split.
  - intros y [j Hj]%list_elem_of_lookup.
    pose proof (lookup_lt_Some _ _ _ Hj) as Hlt. rewrite length_take in Hlt.
    rewrite lookup_take_lt in Hj by lia. apply (Hbefore j); [lia|done].
  - intros y [j Hj]%list_elem_of_lookup. rewrite lookup_drop in Hj.
    apply (Hafter (i + j)%nat); [lia|done].
Qed.

Lemma BinaryInsert_sorted (run : list A) (pivot : A) :
  StronglySorted (key_le key) run →
  (∀ y, y ∈ run → comparefn pivot y = Some (key pivot - key y)) →
  StronglySorted (key_le key) (JS.BinaryInsert comparefn run pivot).
Proof.
  intros Hs Hcmp.
  destruct (BinaryInsert_cases run pivot Hs Hcmp) as (before & after & -> & -> & Hb & Ha).
  apply StronglySorted_app in Hs as (Hba & Hsb & Hsa).
  apply StronglySorted_app. split; [|split; [done|]].
  - intros x1 x2 Hx1 [->|Hx2]%elem_of_cons; unfold key_le.
    + by apply Hb.
    + specialize (Hb _ Hx1). specialize (Ha _ Hx2). lia.
  - constructor; [done|]. apply Forall_forall. intros y Hy. unfold key_le.
    specialize (Ha _ Hy). lia.
Qed.

Lemma fold_BinaryInsert_sorted (rest run : list A) :
  StronglySorted (key_le key) run →
  (∀ x y, x ∈ run ++ rest → y ∈ run ++ rest → comparefn x y = Some (key x - key y)) →
  StronglySorted (key_le key) (fold_left (JS.BinaryInsert comparefn) rest run).
Proof.
  revert run. induction rest as [|x rest IH]; intros run Hs Hcmp; [done|]. simpl.
  apply IH.
  - apply BinaryInsert_sorted; [done|].
    intros y Hy. apply Hcmp; rewrite elem_of_app, elem_of_cons; auto.
  - intros a b Ha Hb. apply Hcmp.
    + rewrite elem_of_app, BinaryInsert_Permutation in Ha. rewrite elem_of_app, !elem_of_cons in *. tauto.
    + rewrite elem_of_app, BinaryInsert_Permutation in Hb. rewrite elem_of_app, !elem_of_cons in *. tauto.
Qed.

(** The run the array starts with: in order, or strictly out of order. *)
Lemma run_rest_ascending (p : A) (l run rest : list A) :
  (∀ x y, x ∈ p :: l → y ∈ p :: l → comparefn x y = Some (key x - key y)) →
  JS.run_rest comparefn false p l = (run, rest) →
  Sorted (key_le key) (p :: run).
Proof.
  revert p run rest. induction l as [|c r IH]; intros p run rest Hcmp; simpl.
  - intros [= <- <-]. repeat constructor.
  - unfold JS.SortCompare. rewrite (Hcmp c p) by (rewrite !elem_of_cons; auto). simpl.
    destruct (Z.ltb_spec (key c - key p) 0); [intros [= <- <-]; repeat constructor|].
    destruct (JS.run_rest comparefn false c r) as [run' rest'] eqn:Hr.
    intros [= <- <-]. constructor.
    + apply (IH c run' rest'); [|done].
      intros x y Hx Hy. apply Hcmp; by apply list_elem_of_further.
    + constructor. unfold key_le. lia.
Qed.

Lemma run_rest_descending (p : A) (l run rest : list A) :
  (∀ x y, x ∈ p :: l → y ∈ p :: l → comparefn x y = Some (key x - key y)) →
  JS.run_rest comparefn true p l = (run, rest) →
  Sorted (fun a b => key b < key a) (p :: run).
Proof.
  revert p run rest. induction l as [|c r IH]; intros p run rest Hcmp; simpl.
  - intros [= <- <-]. repeat constructor.
  - unfold JS.SortCompare. rewrite (Hcmp c p) by (rewrite !elem_of_cons; auto). simpl.
    destruct (Z.leb_spec 0 (key c - key p)); [intros [= <- <-]; repeat constructor|].
    destruct (JS.run_rest comparefn true c r) as [run' rest'] eqn:Hr.
    intros [= <- <-]. constructor.
    + apply (IH c run' rest'); [|done].
      intros x y Hx Hy. apply Hcmp; by apply list_elem_of_further.
    + constructor. lia.
Qed.

Lemma CountAndMakeRun_cases (l run rest : list A) :
  (∀ x y, x ∈ l → y ∈ l → comparefn x y = Some (key x - key y)) →
  JS.CountAndMakeRun comparefn l = (run, rest) →
  (run ++ rest = l ∧ StronglySorted (key_le key) run)
  ∨ (∃ d, d ++ rest = l ∧ run = reverse d ∧
          StronglySorted (fun a b => key b < key a) d).
Proof.
  intros Hcmp. unfold JS.CountAndMakeRun. destruct l as [|h [|lo r]].
  - intros [= <- <-]. left. split; [done|constructor].
  - intros [= <- <-]. left. split; [done|repeat constructor].
  - destruct (JS.run_rest comparefn _ lo r) as [run' rest'] eqn:Hr.
    pose proof (run_rest_app _ _ _ _ _ _ Hr) as Happ.
    revert Hr. unfold JS.SortCompare.
    rewrite (Hcmp lo h) by (rewrite !elem_of_cons; auto). simpl.
    destruct (Z.ltb_spec (key lo - key h) 0) as [Hdesc|Hasc]; intros Hr [= <- <-].
    + right. exists (h :: lo :: run'). split; [by rewrite Happ|]. split; [done|].
      apply Sorted_StronglySorted; [intros x y z; lia|].
      constructor; [|constructor; lia].
      apply (run_rest_descending lo r run' rest'); [|done].
      intros x y Hx Hy. apply Hcmp; by apply list_elem_of_further.
    + left. split; [by rewrite Happ|].
      apply Sorted_StronglySorted; [apply _|].
      constructor; [|constructor; unfold key_le; lia].
      apply (run_rest_ascending lo r run' rest'); [|done].
      intros x y Hx Hy. apply Hcmp; by apply list_elem_of_further.
Qed.

Lemma sort_sorted (l : list A) :
  (∀ x y, x ∈ l → y ∈ l → comparefn x y = Some (key x - key y)) →
  StronglySorted (key_le key) (JS.sort comparefn l).
Proof.
  intros Hcmp. unfold JS.sort.
  destruct (JS.CountAndMakeRun comparefn l) as [run rest] eqn:Hrun.
  pose proof (CountAndMakeRun_Permutation comparefn l run rest Hrun) as Hperm.
  apply fold_BinaryInsert_sorted.
  - destruct (CountAndMakeRun_cases l run rest Hcmp Hrun) as [[_ Hs]|(d & _ & -> & Hs)];
      [done|by apply reverse_descending].
  - intros x y Hx Hy. rewrite Hperm in Hx, Hy. by apply Hcmp.
Qed.

End SortedFacts.

Section ListFacts.
Context {A : Type}.

Lemma filter_elem_of (f : A -> bool) (x : A) (l : list A) :
  x ∈ List.filter f l ↔ x ∈ l ∧ f x = true.
Proof. rewrite !list_elem_of_In. apply filter_In. Qed.

Lemma filter_StronglySorted (R : A -> A -> Prop) (f : A -> bool) (l : list A) :
  StronglySorted R l → StronglySorted R (List.filter f l).
Proof.
  induction 1 as [|x l Hs IH Hx]; simpl; [constructor|].
  destruct (f x); [|done].
  constructor; [done|].
  apply Forall_forall. intros y Hy. apply filter_elem_of in Hy as [Hy _].
  rewrite Forall_forall in Hx. by apply Hx.
Qed.

(** In a sorted list the first element is below and the last element
    above every member. *)
Lemma sorted_extremes (R : A -> A -> Prop) `{!Reflexive R} (l : list A) (a b : A) :
  StronglySorted R l →
  l !! 0%nat = Some a → l !! (length l - 1)%nat = Some b →
  ∀ x, x ∈ l → R a x ∧ R x b.
Proof.
  intros Hs Ha Hb x Hx. split.
  - destruct l as [|a' r]; [done|]. simpl in Ha. injection Ha as ->.
    apply StronglySorted_inv in Hs as [_ Hall].
    apply elem_of_cons in Hx as [->|Hx]; [done|].
    rewrite Forall_forall in Hall. by apply Hall.
  - apply list_elem_of_lookup in Hx as [i Hi].
    pose proof (lookup_lt_Some _ _ _ Hi) as Hlt.
    destruct (decide (i = length l - 1)%nat) as [->|Hne].
    + rewrite Hi in Hb. by injection Hb as ->.
    + apply (StronglySorted_app_1_elem_of R (take (S i) l) (drop (S i) l)).
      * by rewrite take_drop.
      * apply list_elem_of_lookup. exists i. rewrite lookup_take_lt by lia. done.
      * apply list_elem_of_lookup. exists (length l - 1 - S i)%nat.
        rewrite lookup_drop, <- Hb. f_equal. lia.
Qed.
End ListFacts.

(** * The daily job *)
Section SnapshotFacts.
Context (Date_parse : string -> option Z).

Abbreviation expiry_time := (Snapshot.expiry_time Date_parse).
Abbreviation candidates now net :=
  (Snapshot.sorted Date_parse now (Snapshot.susdeMarkets net)).

Lemma ceil_div_pos (a b : Z) : 0 < b → (0 <? JS.ceil_div a b) = (0 <? a).
Proof.
  intros Hb. unfold JS.ceil_div.
  destruct (Z.ltb_spec 0 a) as [Ha|Ha].
  - apply Z.ltb_lt.
    assert (- a / b < 0) by (apply Z.div_lt_upper_bound; lia). lia.
  - apply Z.ltb_ge.
    assert (0 <= - a / b) by (apply Z.div_pos; lia). lia.
Qed.

(** A market passes the expiry filter exactly when its expiry parses
    to a time after [now]. *)
Lemma days_positive_iff (now : Z) (m : Snapshot.Tagged) :
  Snapshot.days_positive Date_parse now m = true ↔
  ∃ t, expiry_time m = Some t ∧ now < t.
Proof.
  unfold Snapshot.days_positive, Snapshot.days, Snapshot.expiry_time.
  destruct (expiry (Snapshot.market m) ≫= Date_parse) as [t|]; simpl.
  - rewrite ceil_div_pos by (unfold JS.msPerDay; lia).
    rewrite Z.ltb_lt. split.
    + intros H. exists t. split; [done|lia].
    + intros (t' & [= <-] & H). lia.
  - split; [done|]. by intros (t & ? & _).
Qed.

Lemma candidates_elem_of (now : Z) (l : list Snapshot.Tagged) (m : Snapshot.Tagged) :
  m ∈ Snapshot.sorted Date_parse now l ↔
  m ∈ l ∧ Snapshot.has_expiry m = true ∧ Snapshot.days_positive Date_parse now m = true.
Proof.
  unfold Snapshot.sorted.
  rewrite filter_elem_of, sort_elem_of, filter_elem_of. tauto.
Qed.

Lemma candidates_length (now : Z) (l : list Snapshot.Tagged) :
  (length (Snapshot.sorted Date_parse now l) <= length l)%nat.
Proof.
  unfold Snapshot.sorted.
  etrans; [apply List.filter_length_le|].
  rewrite sort_length. apply List.filter_length_le.
Qed.

(** With every expiry readable as a date, the candidates come out in
    ascending order of expiry. *)
Lemma candidates_sorted (now : Z) (l : list Snapshot.Tagged) :
  (∀ m, m ∈ l → Snapshot.has_expiry m = true → is_Some (expiry_time m)) →
  StronglySorted (key_le (fun m => default 0 (expiry_time m)))
                 (Snapshot.sorted Date_parse now l).
Proof.
  intros Hparse. unfold Snapshot.sorted.
  apply filter_StronglySorted, sort_sorted.
  intros x y [Hx Hex]%filter_elem_of [Hy Hey]%filter_elem_of.
  destruct (Hparse x Hx Hex) as [tx Htx], (Hparse y Hy Hey) as [ty Hty].
  unfold Snapshot.by_expiry, Snapshot.date_diff.
  unfold Snapshot.expiry_time in Htx, Hty |- *.
  by rewrite Htx, Hty.
Qed.

(** What the handler does once two candidates are left: it stores the
    record built from the first and the last of them. *)
Lemma handler_stores (net : Z -> Snapshot.Fetched) (now : Z)
      (link : Supabase.Link) (tbl : gmap string Supabase.Columns)
      (front back : Snapshot.Tagged) :
  (2 <= length (candidates now net))%nat →
  candidates now net !! 0%nat = Some front →
  candidates now net !! (length (candidates now net) - 1)%nat = Some back →
  let r := Snapshot.record now front back (length (candidates now net)) in
  Snapshot.handler Date_parse net now link tbl =
  match link with
  | Supabase.Up =>
      ({| status := 200;
          body := [("success", JBool true); ("date", JStr (date r));
                   ("term_spread", JNum (term_spread r));
                   ("front_apy", JNum (front_month_apy r));
                   ("back_apy", JNum (back_month_apy r));
                   ("markets", JLen (length (candidates now net)))] |},
       <[date r := Supabase.columns r]> tbl)
  | Supabase.Refusing text =>
      (Snapshot.failure ("Supabase error: " ++ text), tbl)
  | Supabase.Down message => (Snapshot.failure message, tbl)
  end.
Proof.
  intros Hlen Hfront Hback r. unfold Snapshot.handler.
  pose proof (candidates_length now (Snapshot.susdeMarkets net)) as Hle.
  destruct (Nat.ltb_spec (length (Snapshot.susdeMarkets net)) 2); [lia|].
  destruct (Nat.ltb_spec (length (candidates now net)) 2); [lia|].
  rewrite Hfront, Hback. by destruct link.
Qed.

(** Below two candidates nothing is stored and the answer is the
    informational one. *)
Lemma handler_not_enough (net : Z -> Snapshot.Fetched) (now : Z)
      (link : Supabase.Link) (tbl : gmap string Supabase.Columns) :
  (length (candidates now net) < 2)%nat →
  ∃ message key count,
    Snapshot.handler Date_parse net now link tbl =
    ({| status := 200; body := [("message", JStr message); (key, JLen count)] |}, tbl)
    ∧ (count < 2)%nat
    ∧ (key = "marketsFound" ∨ key = "validMarkets").
Proof.
  intros Hlen. unfold Snapshot.handler.
  destruct (Nat.ltb_spec (length (Snapshot.susdeMarkets net)) 2).
  - eexists _, _, _. split; [done|]. split; [done|]. by left.
  - destruct (Nat.ltb_spec (length (candidates now net)) 2); [|lia].
    eexists _, _, _. split; [done|]. split; [done|]. by right.
Qed.

(** The informational answer in full: below two sUSDe markets the
    first message with their number, else the second with the number
    of candidates. *)
Lemma handler_not_enough_body (net : Z -> Snapshot.Fetched) (now : Z)
      (link : Supabase.Link) (tbl : gmap string Supabase.Columns) :
  (length (candidates now net) < 2)%nat →
  let out := Snapshot.handler Date_parse net now link tbl in
  out.2 = tbl ∧ status out.1 = 200 ∧
  ((length (Snapshot.susdeMarkets net) < 2)%nat ∧
   body out.1 = [("message", JStr "Not enough sUSDe markets to calculate spread");
                 ("marketsFound", JLen (length (Snapshot.susdeMarkets net)))]
   ∨ (2 <= length (Snapshot.susdeMarkets net))%nat ∧
     body out.1 = [("message", JStr "Not enough valid sUSDe markets");
                   ("validMarkets", JLen (length (candidates now net)))]).
Proof.
  intros Hlen. unfold Snapshot.handler.
  destruct (Nat.ltb_spec (length (Snapshot.susdeMarkets net)) 2).
  - split; [done|]. split; [done|]. by left.
  - destruct (Nat.ltb_spec (length (candidates now net)) 2); [|lia].
    split; [done|]. split; [done|]. by right.
Qed.
End SnapshotFacts.

(** C1 fails on the code.  The job sorts before it drops the markets
    whose expiry is no date, and a comparison with such a market gives
    [NaN].  Here the feed lists the market of 2026-06-30 (1%), one with
    the expiry [soon], and the market of 2026-01-11 (4%): the sort
    leaves them as they are, the two candidates are the first and the
    third, and the record takes the later expiry for the front: a
    spread of 3 from 2026-06-30 to 2026-01-11, where the earliest and
    the latest expiry of the two candidates give -3. *)
Lemma unreadable_expiry_misplaces_front :
  let cands := Snapshot.sorted IsoDate.parse asOf (Snapshot.susdeMarkets one_unreadable) in
  let out := Snapshot.handler IsoDate.parse one_unreadable asOf Supabase.Up ∅ in
  (Snapshot.expiry_day <$> cands) = ["2026-06-30"; "2026-01-11"] ∧
  (Snapshot.impliedYield <$> cands) = [1%float; 4%float] ∧
  field "term_spread" (body out.1) = Some (JNum 3) ∧
  out.2 !! "2026-01-01"
  = Some {| Supabase.c_term_spread := 3;
            Supabase.c_front_month_apy := 1;
            Supabase.c_back_month_apy := 4;
            Supabase.c_front_expiry := "2026-06-30";
            Supabase.c_back_expiry := "2026-01-11";
            Supabase.c_underlying_apy := 0;
            Supabase.c_markets_count := 2 |}.
Proof. vm_compute. repeat split. Qed.

(** X21: what the job stores with two or more candidates left after
    the expiry filter: under today's date, a record whose [term_spread] is
    the back market's implied rate times 100 minus the front market's
    implied rate times 100, rounded to four decimals, and whose
    [front_expiry] and [back_expiry] are the days of those two markets;
    the front and the back market are the first and the last candidate,
    which are the earliest and the latest expiry among the candidates
    when every expiry string of the sorted markets is a date. *)
Theorem term_spread_of_extremes
        (Date_parse : string -> option Z) (net : Z -> Snapshot.Fetched) (now : Z)
        (tbl : gmap string Supabase.Columns) :
  let cands := Snapshot.sorted Date_parse now (Snapshot.susdeMarkets net) in
  let out := Snapshot.handler Date_parse net now Supabase.Up tbl in
  (2 <= length cands)%nat →
  ∃ front back r,
    cands !! 0%nat = Some front ∧
    cands !! (length cands - 1)%nat = Some back ∧
    out.2 !! Snapshot.today now = Some (Supabase.columns r) ∧
    field "term_spread" (body out.1) = Some (JNum (term_spread r)) ∧
    term_spread r =
      JS.parseFloat (JS.toFixed (resolve_impliedApy (Snapshot.market back) * 100
                                 - resolve_impliedApy (Snapshot.market front) * 100)%float 4) ∧
    front_month_apy r
    = JS.parseFloat (JS.toFixed (resolve_impliedApy (Snapshot.market front) * 100)%float 4) ∧
    back_month_apy r
    = JS.parseFloat (JS.toFixed (resolve_impliedApy (Snapshot.market back) * 100)%float 4) ∧
    front_expiry r = Snapshot.expiry_day front ∧
    back_expiry r = Snapshot.expiry_day back ∧
    ((∀ m, m ∈ Snapshot.susdeMarkets net → Snapshot.has_expiry m = true →
           is_Some (Snapshot.expiry_time Date_parse m)) →
     ∀ m, m ∈ cands → ∃ tf tm tb,
         Snapshot.expiry_time Date_parse front = Some tf ∧
         Snapshot.expiry_time Date_parse m = Some tm ∧
         Snapshot.expiry_time Date_parse back = Some tb ∧
         tf <= tm <= tb).
Proof.
  intros cands out Hlen.
  destruct (lookup_lt_is_Some_2 cands 0%nat) as [front Hfront]; [lia|].
  destruct (lookup_lt_is_Some_2 cands (length cands - 1)%nat) as [back Hback]; [lia|].
  exists front, back, (Snapshot.record now front back (length cands)).
  split; [done|]. split; [done|].
  assert (Hout : out = Snapshot.handler Date_parse net now Supabase.Up tbl) by done.
  rewrite (handler_stores Date_parse net now Supabase.Up tbl front back Hlen Hfront Hback)
    in Hout.
  rewrite Hout. simpl.
  split; [apply lookup_insert_eq|]. repeat (split; [done|]).
  intros Hparse.
  pose proof (candidates_sorted Date_parse now _ Hparse) as Hsorted.
  assert (Hpos : ∀ m, m ∈ cands → ∃ t, Snapshot.expiry_time Date_parse m = Some t).
  { intros m (_ & _ & Hd)%candidates_elem_of.
    apply days_positive_iff in Hd as (t & Ht & _). eauto. }
  intros m Hm.
  destruct (Hpos front) as [tf Htf]; [by eapply list_elem_of_lookup_2|].
  destruct (Hpos back) as [tb Htb]; [by eapply list_elem_of_lookup_2|].
  destruct (Hpos m Hm) as [tm Htm].
  exists tf, tm, tb. repeat (split; [done|]).
  assert (Hrefl : Reflexive (key_le (fun m => default 0 (Snapshot.expiry_time Date_parse m)))).
  { intros x. unfold key_le. lia. }
  destruct (sorted_extremes _ cands front back Hsorted Hfront Hback m Hm) as [H1 H2].
  unfold key_le in H1, H2. rewrite Htf, Htm in H1. rewrite Htm, Htb in H2.
  simpl in H1, H2. lia.
Qed.

(** X21, the scenario of two readable expiries: rates 0.04 at ten days
    and 0.01 at a hundred and eighty days give a stored spread of -3. *)
Lemma term_spread_scenario :
  (Snapshot.handler IsoDate.parse two_maturities asOf Supabase.Up ∅).2 !! "2026-01-01"
  = Some {| Supabase.c_term_spread := -3;
            Supabase.c_front_month_apy := 4;
            Supabase.c_back_month_apy := 1;
            Supabase.c_front_expiry := "2026-01-11";
            Supabase.c_back_expiry := "2026-06-30";
            Supabase.c_underlying_apy := 0;
            Supabase.c_markets_count := 2 |}.
Proof.
  destruct (term_spread_of_extremes IsoDate.parse two_maturities asOf ∅)
    as (front & back & r & Hfront & Hback & Hrow & _).
  - vm_compute. lia.
  - vm_compute. reflexivity.
Defined.

(** C5 as stated fails: the exclusion of the expired market leaves one
    candidate here, and the result is not the single-candidate one of
    the claim (one point, a spread of 0, a reason): the body is the
    message with the number of valid markets, with no [term_spread] and
    no [reason]. *)
Lemma exclusion_gives_no_degenerate_result :
  let out := Snapshot.handler IsoDate.parse one_expired asOf Supabase.Up ∅ in
  length (Snapshot.susdeMarkets one_expired) = 2%nat ∧
  length (Snapshot.sorted IsoDate.parse asOf (Snapshot.susdeMarkets one_expired)) = 1%nat ∧
  body out.1 = [("message", JStr "Not enough valid sUSDe markets");
                ("validMarkets", JLen 1)] ∧
  field "term_spread" (body out.1) = None ∧
  field "reason" (body out.1) = None.
Proof. vm_compute. repeat split. Qed.

(** C5, amended: a market is a candidate only with a strictly positive
    number of days to expiry; the filter runs before the front and the
    back market are picked, so the two markets the stored record is
    built from are candidates and neither is expired; and when fewer
    than two candidates are left the job stores nothing and answers
    200 with a message and a count and nothing else: below two sUSDe
    markets the number of those, else the number of candidates left. *)
Theorem expired_markets_excluded
        (Date_parse : string -> option Z) (net : Z -> Snapshot.Fetched) (now : Z)
        (link : Supabase.Link) (tbl : gmap string Supabase.Columns) :
  let cands := Snapshot.sorted Date_parse now (Snapshot.susdeMarkets net) in
  let out := Snapshot.handler Date_parse net now link tbl in
  (∀ m, m ∈ cands ↔
        m ∈ Snapshot.susdeMarkets net ∧ Snapshot.has_expiry m = true ∧
        ∃ d, Snapshot.days Date_parse now m = Some d ∧ 0 < d) ∧
  ((2 <= length cands)%nat →
   ∃ front back df db,
     front ∈ cands ∧ Snapshot.days Date_parse now front = Some df ∧ 0 < df ∧
     back ∈ cands ∧ Snapshot.days Date_parse now back = Some db ∧ 0 < db ∧
     (Snapshot.handler Date_parse net now Supabase.Up tbl).2
     = <[Snapshot.today now :=
           Supabase.columns (Snapshot.record now front back (length cands))]> tbl) ∧
  ((length cands < 2)%nat →
   out.2 = tbl ∧ status out.1 = 200 ∧
   ((length (Snapshot.susdeMarkets net) < 2)%nat ∧
    body out.1 = [("message", JStr "Not enough sUSDe markets to calculate spread");
                  ("marketsFound", JLen (length (Snapshot.susdeMarkets net)))]
    ∨ (2 <= length (Snapshot.susdeMarkets net))%nat ∧
      body out.1 = [("message", JStr "Not enough valid sUSDe markets");
                    ("validMarkets", JLen (length cands))]) ∧
   field "term_spread" (body out.1) = None ∧ field "reason" (body out.1) = None ∧
   field "success" (body out.1) = None ∧ field "error" (body out.1) = None).
Proof.
  intros cands out.
  assert (Hd : ∀ m, Snapshot.days_positive Date_parse now m = true ↔
                    ∃ d, Snapshot.days Date_parse now m = Some d ∧ 0 < d).
  { intros m. unfold Snapshot.days_positive.
    destruct (Snapshot.days Date_parse now m) as [d|].
    - rewrite Z.ltb_lt. split; [eauto|]. by intros (d' & [= <-] & ?).
    - split; [done|]. by intros (d & ? & _). }
  assert (Hin : ∀ m, m ∈ cands → ∃ d, Snapshot.days Date_parse now m = Some d ∧ 0 < d).
  { intros m Hm. apply Hd. by apply candidates_elem_of in Hm as (_ & _ & ?). }
  split; [|split].
  - intros m. subst cands. rewrite candidates_elem_of, Hd. done.
  - intros Hlen.
    destruct (lookup_lt_is_Some_2 cands 0%nat) as [front Hfront]; [lia|].
    destruct (lookup_lt_is_Some_2 cands (length cands - 1)%nat) as [back Hback]; [lia|].
    pose proof (list_elem_of_lookup_2 _ _ _ Hfront) as Hf.
    pose proof (list_elem_of_lookup_2 _ _ _ Hback) as Hb.
    destruct (Hin front Hf) as (df & Hdf & ?), (Hin back Hb) as (db & Hdb & ?).
    exists front, back, df, db. repeat (split; [done|]).
    by rewrite (handler_stores Date_parse net now Supabase.Up tbl front back Hlen Hfront Hback).
  - intros Hlen.
    destruct (handler_not_enough_body Date_parse net now link tbl Hlen)
      as (Htbl & Hstatus & Hbody).
    split; [done|]. split; [done|]. split; [done|].
    by destruct Hbody as [[_ Hbody] | [_ Hbody]]; subst out; rewrite Hbody.
Qed.

(** C5, an instance: the expired market is dropped, one candidate is
    left, and the job answers that there are not enough valid markets. *)
Lemma expired_market_scenario :
  Snapshot.handler IsoDate.parse one_expired asOf Supabase.Up ∅
  = ({| status := 200;
        body := [("message", JStr "Not enough valid sUSDe markets");
                 ("validMarkets", JLen 1)] |}, ∅).
Proof.
  pose proof (expired_markets_excluded IsoDate.parse one_expired asOf Supabase.Up ∅)
    as (_ & _ & Hfew).
  destruct Hfew as (Htbl & _); [vm_compute; lia|].
  apply injective_projections; [vm_compute; reflexivity|exact Htbl].
Defined.

(** C9: the markets the job works on are those the chains delivered,
    chain by chain; a chain whose request fails delivers none, so the
    job runs exactly as if that chain had answered with no markets. *)
Theorem failed_chain_contributes_nothing
        (Date_parse : string -> option Z) (net : Z -> Snapshot.Fetched) (now : Z)
        (link : Supabase.Link) (tbl : gmap string Supabase.Columns)
        (c : Z) (message : string) :
  net c = Snapshot.Rejects message →
  Snapshot.allMarkets (Snapshot.responses net)
  = (ch ← Snapshot.CHAINS;
     (fun m => {| Snapshot.market := m;
                  Snapshot.on_chain := Snapshot.chain_name ch;
                  Snapshot.on_chainId := Snapshot.id ch |})
       <$> delivered (net (Snapshot.id ch)))
  ∧ Snapshot.handler Date_parse net now link tbl
    = Snapshot.handler Date_parse (silenced c net) now link tbl.
Proof.
  intros Hfail.
  assert (Hall : ∀ n : Z -> Snapshot.Fetched,
             Snapshot.allMarkets (Snapshot.responses n)
             = (ch ← Snapshot.CHAINS;
                (fun m => {| Snapshot.market := m;
                             Snapshot.on_chain := Snapshot.chain_name ch;
                             Snapshot.on_chainId := Snapshot.id ch |})
                  <$> delivered (n (Snapshot.id ch)))).
  { intros n. unfold Snapshot.allMarkets, Snapshot.responses, Snapshot.CHAINS.
    simpl. unfold Snapshot.respond.
    by destruct (n 1) as [?|[?|]], (n 9745) as [?|[?|]]. }
  split; [apply Hall|].
  assert (Hsame : Snapshot.susdeMarkets net = Snapshot.susdeMarkets (silenced c net)).
  { unfold Snapshot.susdeMarkets. rewrite !Hall. f_equal.
    assert (Hdel : ∀ k, delivered (silenced c net k) = delivered (net k)).
    { intros k. unfold silenced. destruct (Z.eqb_spec k c) as [->|_]; [|done].
      by rewrite Hfail. }
    unfold Snapshot.CHAINS. simpl. by rewrite !Hdel. }
  unfold Snapshot.handler. by rewrite Hsame.
Qed.

(** C9, the scenario: one request fails, the other brings three valid
    markets, and the job computes and stores the spread of those three. *)
Lemma failed_chain_scenario :
  (Snapshot.handler IsoDate.parse one_failing asOf Supabase.Up ∅).1
  = {| status := 200;
       body := [("success", JBool true); ("date", JStr "2026-01-01");
                ("term_spread", JNum (-1)); ("front_apy", JNum 5);
                ("back_apy", JNum 4); ("markets", JLen 3)] |}.
Proof.
  destruct (failed_chain_contributes_nothing IsoDate.parse one_failing asOf
              Supabase.Up ∅ 1 "fetch failed" eq_refl) as [_ ->].
  vm_compute. reflexivity.
Defined.

(** * The store and the history endpoint *)
Section StoreFacts.

Lemma leb_iff (a b : string) :
  String.leb a b = true ↔ a = b ∨ OrderedTypeEx.String_as_OT.lt a b.
Proof.
  unfold String.leb.
  destruct (String.compare a b) eqn:Hc.
  - apply OrderedTypeEx.String_as_OT.cmp_eq in Hc. tauto.
  - apply OrderedTypeEx.String_as_OT.cmp_lt in Hc. tauto.
  - split; [done|]. intros [->|Hlt].
    + assert (String.compare b b = Eq) as Heq
          by by apply OrderedTypeEx.String_as_OT.cmp_eq.
      congruence.
    + apply OrderedTypeEx.String_as_OT.cmp_lt in Hlt.
      unfold OrderedTypeEx.String_as_OT.cmp in Hlt. congruence.
Qed.

Lemma leb_trans (a b c : string) :
  String.leb a b = true → String.leb b c = true → String.leb a c = true.
Proof.
  rewrite !leb_iff. intros [->|Hab] [->|Hbc]; auto.
  right. by eapply OrderedTypeEx.String_as_OT.lt_trans.
Qed.

Global Instance date_desc_total : Total Supabase.date_desc.
Proof. intros a b. unfold Supabase.date_desc. destruct (String.leb_total a.1 b.1); auto. Qed.

Global Instance date_desc_trans : Transitive Supabase.date_desc.
Proof. intros a b c Hab Hbc. unfold Supabase.date_desc in *. by eapply leb_trans. Qed.

Global Instance date_asc_trans : Transitive date_asc.
Proof. intros a b c Hab Hbc. unfold date_asc in *. by eapply leb_trans. Qed.

Lemma row_key (kv : string * Supabase.Columns) : date (Supabase.row kv) = kv.1.
Proof. done. Qed.

Lemma row_columns (r : Snapshot) : Supabase.row (date r, Supabase.columns r) = r.
Proof. by destruct r. Qed.

(** The rows come newest first, one per date. *)
Lemma rows_sorted (tbl : gmap string Supabase.Columns) :
  StronglySorted (flip date_asc) (Supabase.rows tbl).
Proof.
  unfold Supabase.rows.
  apply (StronglySorted_fmap _ Supabase.date_desc (flip date_asc)); [done|].
  apply StronglySorted_merge_sort; apply _.
Qed.

Lemma rows_NoDup (tbl : gmap string Supabase.Columns) :
  NoDup (date <$> Supabase.rows tbl).
Proof.
  unfold Supabase.rows. rewrite <- list_fmap_compose.
  rewrite (list_fmap_ext (date ∘ Supabase.row) fst _) by done.
  rewrite merge_sort_Permutation. apply NoDup_fst_map_to_list.
Qed.

Lemma rows_elem_of (tbl : gmap string Supabase.Columns) (r : Snapshot) :
  r ∈ Supabase.rows tbl ↔ tbl !! date r = Some (Supabase.columns r).
Proof.
  unfold Supabase.rows. rewrite list_elem_of_fmap. split.
  - intros ([k c] & -> & Hin). rewrite merge_sort_Permutation in Hin.
    apply elem_of_map_to_list in Hin. by destruct c.
  - intros Hl. exists (date r, Supabase.columns r). split; [by rewrite row_columns|].
    rewrite merge_sort_Permutation. by apply elem_of_map_to_list.
Qed.

Lemma take_StronglySorted {A : Type} (R : A -> A -> Prop) (n : nat) (l : list A) :
  StronglySorted R l → StronglySorted R (take n l).
Proof.
  intros Hs. rewrite <- (take_drop n l) in Hs.
  by apply StronglySorted_app_1_l in Hs.
Qed.

Lemma reverse_StronglySorted {A : Type} (R : A -> A -> Prop) (l : list A) :
  StronglySorted (flip R) l → StronglySorted R (reverse l).
Proof.
  induction 1 as [|x l Hs IH Hx]; [constructor|].
  rewrite reverse_cons. apply StronglySorted_app_2.
  - intros a b Ha Hb. rewrite elem_of_reverse in Ha.
    rewrite list_elem_of_singleton in Hb. subst b.
    rewrite Forall_forall in Hx. by apply Hx.
  - done.
  - repeat constructor.
Qed.

End StoreFacts.

Section StoreClaims.

Lemma filter_date_none (l : list Snapshot) (d : string) :
  d ∉ date <$> l → List.filter (fun s => String.eqb (date s) d) l = [].
Proof.
  induction l as [|x l IH]; intros Hd; [done|]. simpl.
  rewrite fmap_cons, not_elem_of_cons in Hd. destruct Hd as [Hne Hd].
  destruct (String.eqb_spec (date x) d) as [Heq|_]; [by subst|]. by apply IH.
Qed.

(** In a list without two entries of the same date, the entries of a
    given date are at most the one. *)
Lemma filter_date_unique (l : list Snapshot) (r : Snapshot) :
  NoDup (date <$> l) → r ∈ l →
  List.filter (fun s => String.eqb (date s) (date r)) l = [r].
Proof.
  induction l as [|x l IH]; intros Hnd Hin; [by apply elem_of_nil in Hin|].
  rewrite fmap_cons in Hnd. apply NoDup_cons in Hnd as [Hx Hnd]. simpl.
  destruct (String.eqb_spec (date x) (date r)) as [Heq|Hne].
  - assert (x = r) as ->.
    { apply elem_of_cons in Hin as [->|Hin]; [done|].
      exfalso. apply Hx. rewrite Heq. by apply list_elem_of_fmap_2. }
    f_equal. by apply filter_date_none.
  - apply IH; [done|].
    apply elem_of_cons in Hin as [->|Hin]; [done|done].
Qed.

(** The job run stores at most under one key, and what it stores does
    not depend on the table. *)
Lemma handler_table (Date_parse : string -> option Z) (net : Z -> Snapshot.Fetched)
      (now : Z) :
  ∃ resp, (∀ tbl, Snapshot.handler Date_parse net now Supabase.Up tbl = (resp, tbl))
          ∨ ∃ r, ∀ tbl, Snapshot.handler Date_parse net now Supabase.Up tbl
                        = (resp, <[date r := Supabase.columns r]> tbl).
Proof.
  unfold Snapshot.handler.
  destruct (length (Snapshot.susdeMarkets net) <? 2)%nat; [eexists; by left|].
  destruct (length (Snapshot.sorted Date_parse now (Snapshot.susdeMarkets net)) <? 2)%nat;
    [eexists; by left|].
  destruct (_ !! 0%nat) as [front|]; [|eexists; by left].
  destruct (_ !! _) as [back|]; [|eexists; by left].
  eexists. right.
  by exists (Snapshot.record now front back
               (length (Snapshot.sorted Date_parse now (Snapshot.susdeMarkets net)))).
Qed.

End StoreClaims.

(** The day count of a read: a number other than zero that is at most
    365, or [-Infinity]. *)
Lemma limitedDays_cases (q : option string) :
  (∃ n, History.limitedDays q = JS.Finite n ∧ n <= 365 ∧ n ≠ 0)
  ∨ History.limitedDays q = JS.Infinity true.
Proof.
  unfold History.limitedDays.
  destruct (JS.parseInt q) as [|n|[|]]; simpl.
  - left. by exists 90.
  - left. destruct n as [|n|n]; simpl; [by exists 90|..]; eexists; (split; [done|lia]).
  - by right.
  - left. by exists 365.
Qed.

(** C7: whatever the day count, when the store answers the handler
    returns the rows it fetched in reverse; the store hands them over
    newest first, so the returned sequence is in ascending order of
    date, with no date twice.  A reachable store answers every count
    that is not negative. *)
Theorem history_chronological
        (method : string) (query_days : option string) (link : Supabase.Link)
        (tbl : gmap string Supabase.Columns) :
  String.eqb method "OPTIONS" = false →
  (∀ fetched,
     Supabase.select_desc link (History.limitedDays query_days) tbl = Supabase.Ok fetched →
     StronglySorted (flip date_asc) fetched ∧
     History.handler method query_days link tbl
     = {| status := 200;
          body := [("success", JBool true); ("count", JLen (length fetched));
                   ("data", JRows (reverse fetched))] |} ∧
     StronglySorted date_asc (reverse fetched) ∧
     NoDup (date <$> reverse fetched)) ∧
  (link = Supabase.Up → JS.leb (JS.Finite 0) (History.limitedDays query_days) = true →
   ∃ fetched,
     Supabase.select_desc link (History.limitedDays query_days) tbl = Supabase.Ok fetched).
Proof.
  intros Hmethod. split.
  - intros fetched Hsel.
    assert (Hfetched : ∃ n, fetched = take n (Supabase.rows tbl)).
    { unfold Supabase.select_desc in Hsel. destruct link; [|done|done].
      destruct (History.limitedDays query_days) as [|limit|negative]; [done| |done].
      destruct (limit <? 0); [done|].
      injection Hsel as <-. eauto. }
    destruct Hfetched as [n ->].
    assert (Hdesc : StronglySorted (flip date_asc) (take n (Supabase.rows tbl)))
      by apply take_StronglySorted, rows_sorted.
    split; [done|]. split; [|split].
    + unfold History.handler. rewrite Hmethod, Hsel. by rewrite length_reverse.
    + by apply reverse_StronglySorted.
    + rewrite fmap_reverse, reverse_Permutation, fmap_take.
      apply (sublist_NoDup _ (date <$> Supabase.rows tbl));
        [apply rows_NoDup|apply sublist_take].
  - intros -> Hlimit. unfold Supabase.select_desc.
    destruct (limitedDays_cases query_days) as [(limit & Hq & _) | Hq];
      rewrite Hq in Hlimit |- *; [|done].
    simpl in Hlimit. apply Z.leb_le in Hlimit.
    destruct (Z.ltb_spec limit 0); [lia|]. eauto.
Qed.

(** C7, an instance: of three days written out of order, the two newest
    come back oldest first. *)
Lemma history_chronological_sample :
  History.handler "GET" (Some "2") Supabase.Up three_days
  = {| status := 200;
       body := [("success", JBool true); ("count", JLen 2);
                ("data", JRows [snapshot_of "2026-01-01" (-1);
                                snapshot_of "2026-01-02" (-2)])] |}.
Proof.
  destruct (history_chronological "GET" (Some "2") Supabase.Up three_days eq_refl)
    as [Hsorted _].
  destruct (Hsorted [snapshot_of "2026-01-02" (-2); snapshot_of "2026-01-01" (-1)])
    as (_ & -> & _).
  - vm_compute. reflexivity.
  - reflexivity.
Defined.

(** C2 as stated fails: a request for 0 days is served with the default
    of 90 days, and on a store that holds rows the answer is not empty. *)
Lemma zero_days_not_empty :
  History.limitedDays (Some "0") = JS.Finite 90 ∧
  field "data" (body (History.handler "GET" (Some "0") Supabase.Up three_days))
  ≠ Some (JRows []).
Proof. split; [reflexivity|]. vm_compute. discriminate. Qed.

(** C2, amended: the day count never exceeds 365, any request for 365
    days or more is a request for 365, so 1000 days is served as 365
    days; a request for 0 days is served as the default, 90 days, the
    same as a request with no day count. *)
Theorem history_day_count_clamped
        (method : string) (link : Supabase.Link) (tbl : gmap string Supabase.Columns) :
  (∀ q, JS.leb (History.limitedDays q) (JS.Finite 365) = true) ∧
  (∀ q, JS.leb (JS.Finite 365) (JS.parseInt q) = true →
        History.limitedDays q = JS.Finite 365) ∧
  History.handler method (Some "1000") link tbl
  = History.handler method (Some "365") link tbl ∧
  History.limitedDays (Some "0") = JS.Finite 90 ∧
  History.handler method (Some "0") link tbl
  = History.handler method (Some "90") link tbl ∧
  History.handler method (Some "0") link tbl = History.handler method None link tbl.
Proof.
  split; [|split; [|split; [|split; [|split]]]].
  - intros q. destruct (limitedDays_cases q) as [(n & -> & Hn & _) | ->]; [|done].
    by apply Z.leb_le.
  - intros q Hq. unfold History.limitedDays.
    destruct (JS.parseInt q) as [|n|[|]]; [done| |done|done].
    simpl in Hq. apply Z.leb_le in Hq.
    destruct n as [|n|n]; [lia| |lia]. simpl. f_equal. lia.
  - reflexivity.
  - reflexivity.
  - reflexivity.
  - reflexivity.
Qed.

(** C8: the table holds one row for a date.  Writing the same snapshot
    twice leaves what writing it once leaves, a single row of that date
    equal to the snapshot; writing two snapshots of one date leaves what
    writing the second alone leaves, the single row of that date is the
    second snapshot, and a first snapshot with another spread is not
    among the rows.  Running the job twice on the same inputs leaves the
    table of a single run. *)
Theorem put_is_upsert_on_date (tbl : gmap string Supabase.Columns) (r1 r2 : Snapshot) :
  let put r t := (Supabase.upsert Supabase.Up r t).2 in
  (put r2 (put r2 tbl) = put r2 tbl ∧
   List.filter (fun s => String.eqb (date s) (date r2)) (Supabase.rows (put r2 (put r2 tbl)))
   = [r2]) ∧
  (date r1 = date r2 →
   put r2 (put r1 tbl) = put r2 tbl ∧
   put r2 (put r1 tbl) !! date r2 = Some (Supabase.columns r2) ∧
   List.filter (fun s => String.eqb (date s) (date r2)) (Supabase.rows (put r2 (put r1 tbl)))
   = [r2] ∧
   (term_spread r1 ≠ term_spread r2 → r1 ∉ Supabase.rows (put r2 (put r1 tbl)))) ∧
  (∀ Date_parse net now,
     let run t := Snapshot.handler Date_parse net now Supabase.Up t in
     run (run tbl).2 = run tbl).
Proof.
  intros put.
  assert (Hone : ∀ r t, List.filter (fun s => String.eqb (date s) (date r))
                                    (Supabase.rows (put r t)) = [r]).
  { intros r t. apply filter_date_unique; [apply rows_NoDup|].
    apply rows_elem_of. apply lookup_insert_eq. }
  split; [|split].
  - split; [apply insert_insert_eq|]. apply Hone.
  - intros Hdate. subst put. simpl. rewrite Hdate.
    split; [apply insert_insert_eq|]. split; [apply lookup_insert_eq|].
    split; [apply (Hone r2)|].
    intros Hne Hin. apply rows_elem_of in Hin. rewrite Hdate in Hin.
    rewrite lookup_insert_eq in Hin.
    apply (f_equal (fmap Supabase.c_term_spread)) in Hin. simpl in Hin.
    congruence.
  - intros Date_parse net now run. subst run.
    destruct (handler_table Date_parse net now) as [resp [H | [r H]]].
    + by rewrite !H.
    + rewrite !H. simpl. by rewrite insert_insert_eq.
Qed.

(** C8, an instance: two writes for 2026-01-01, spreads -3 then -1; the
    row that can be read back carries -1. *)
Lemma last_write_wins_sample :
  (Supabase.upsert Supabase.Up (snapshot_of "2026-01-01" (-1))
     (Supabase.upsert Supabase.Up (snapshot_of "2026-01-01" (-3)) ∅).2).2 !! "2026-01-01"
  = Some (Supabase.columns (snapshot_of "2026-01-01" (-1))).
Proof.
  destruct (put_is_upsert_on_date ∅ (snapshot_of "2026-01-01" (-3))
              (snapshot_of "2026-01-01" (-1))) as (_ & Hlast & _).
  destruct Hlast as (_ & Hread & _); [reflexivity|]. exact Hread.
Defined.

(** * Matching the asset symbol *)
Section StringFacts.

Lemma prefix_iff (p s : string) :
  String.prefix p s = true ↔ ∃ post, s = (p ++ post)%string.
Proof.
  revert s. induction p as [|c p IH]; intros [|d s]; simpl.
  - split; [by exists ""%string|done].
  - split; [by exists (String d s)|done].
  - split; [done|]. by intros [post ?].
  - destruct (Ascii.ascii_dec c d) as [->|Hne].
    + rewrite IH. split; intros [post Hp]; exists post; [by rewrite Hp|].
      by injection Hp.
    + split; [done|]. intros [post Hp]. injection Hp as Hc _. congruence.
Qed.

Lemma includes_here (s p : string) :
  String.prefix p s = true → JS.includes s p = true.
Proof. intros Hp. destruct s; cbn [JS.includes]; by rewrite Hp. Qed.

Lemma includes_iff (s p : string) :
  JS.includes s p = true ↔ ∃ pre post, s = (pre ++ p ++ post)%string.
Proof.
  split.
  - induction s as [|c s IH]; cbn [JS.includes].
    + destruct (String.prefix p "") eqn:Hp; [|done].
      apply prefix_iff in Hp as [post Hp]. intros _. by exists ""%string, post.
    + destruct (String.prefix p (String c s)) eqn:Hp.
      * apply prefix_iff in Hp as [post Hp]. intros _. by exists ""%string, post.
      * intros (pre & post & ->)%IH. by exists (String c pre), post.
  - intros (pre & post & ->).
    induction pre as [|c pre IH].
    + apply includes_here, prefix_iff. by exists post.
    + change (JS.includes (String c (pre ++ p ++ post)) p = true).
      cbn [JS.includes].
      by destruct (String.prefix p (String c (pre ++ p ++ post))).
Qed.

Lemma toLowerCase_app (a b : string) :
  JS.toLowerCase (a ++ b) = (JS.toLowerCase a ++ JS.toLowerCase b)%string.
Proof. induction a as [|c a IH]; simpl; [done|]. by rewrite IH. Qed.

Lemma toLowerCase_split (s a b : string) :
  JS.toLowerCase s = (a ++ b)%string →
  ∃ a' b', s = (a' ++ b')%string ∧ JS.toLowerCase a' = a ∧ JS.toLowerCase b' = b.
Proof.
  revert s. induction a as [|c a IH]; intros s Hs.
  - by exists ""%string, s.
  - destruct s as [|d s]; [done|]. simpl in Hs. injection Hs as Hc Hs.
    destruct (IH s Hs) as (a' & b' & -> & Ha & Hb).
    exists (String d a'), b'. simpl. by rewrite Hc, Ha.
Qed.

(** Looking for the lowered pattern in the lowered text is looking for
    the pattern, letter case aside. *)
Lemma includes_lower (s t : string) :
  JS.includes (JS.toLowerCase s) (JS.toLowerCase t) = true ↔ contains_ci s t.
Proof.
  rewrite includes_iff. unfold contains_ci. split.
  - intros (pre & post & Hs).
    apply toLowerCase_split in Hs as (pre' & rest & -> & _ & Hrest).
    apply toLowerCase_split in Hrest as (mid & post' & -> & Hmid & _).
    by exists pre', mid, post'.
  - intros (pre & mid & post & -> & Hmid).
    exists (JS.toLowerCase pre), (JS.toLowerCase post).
    by rewrite !toLowerCase_app, Hmid.
Qed.

End StringFacts.

(** C3 as stated fails for the daily job: a market named
    ['sUSDe Something'], and one whose underlying-asset symbol is
    ['SUSDE-x'], contain the symbol and pass the dashboard's filter, but
    the job's filter turns both down. *)
Lemma job_filter_wants_exact_name :
  let named := quoted "sUSDe Something" "2026-03-26T00:00:00.000Z" 0.05 in
  let by_symbol :=
    {| name := None; proName := None; symbol := Some "SUSDE-x";
       expiry := Some "2026-03-26T00:00:00.000Z"; details := None;
       impliedApy := Some 0.05%float; underlyingApy := None;
       liquidity_usd := None; address := None |} in
  let tag m := {| Snapshot.market := m; Snapshot.on_chain := "Ethereum";
                  Snapshot.on_chainId := 1 |} in
  contains_ci "sUSDe Something" "susde" ∧
  App.is_susde named = true ∧ Snapshot.is_susde (tag named) = false ∧
  contains_ci "SUSDE-x" "susde" ∧
  App.is_susde by_symbol = true ∧ Snapshot.is_susde (tag by_symbol) = false.
Proof.
  repeat split.
  - by exists ""%string, "sUSDe"%string, " Something"%string.
  - by exists ""%string, "SUSDE"%string, "-x"%string.
Qed.

(** C3, amended: in the dashboard a record qualifies exactly when its
    display name (the name, else the professional name) or its
    underlying-asset symbol contains ['susde'], letter case aside; in
    the daily job a record qualifies exactly when its name is ['susde'],
    letter case aside. *)
Theorem susde_matching (m : Market) (t : Snapshot.Tagged) :
  (App.is_susde m = true ↔
   contains_ci (JS.or_lit (JS.or_str (name m) (proName m)) "") "susde" ∨
   contains_ci (JS.or_lit (symbol m) "") "susde") ∧
  (Snapshot.is_susde t = true ↔
   eq_ci (JS.or_lit (name (Snapshot.market t)) "") "susde").
Proof.
  split.
  - unfold App.is_susde. rewrite orb_true_iff.
    by rewrite <- !includes_lower.
  - unfold Snapshot.is_susde, eq_ci. by rewrite String.eqb_eq.
Qed.

(** * Field resolution *)

(** C6 as stated fails: the nested implied rate of this record is
    present, so a resolution by presence yields it, [0]; the code
    yields the top-level [0.05]. *)
Lemma present_zero_is_passed_over :
  details_field Details.impliedApy zero_nested = Some 0%float ∧
  first_present [details_field Details.impliedApy zero_nested; impliedApy zero_nested]
  = 0%float ∧
  resolve_impliedApy zero_nested = 0.05%float ∧
  resolve_impliedApy zero_nested
  ≠ first_present [details_field Details.impliedApy zero_nested; impliedApy zero_nested].
Proof.
  repeat split. intros H.
  apply (f_equal (fun x => PrimFloat.eqb x 0)) in H. vm_compute in H. discriminate.
Qed.

(** C6, amended: each field resolves to the first of its sources whose
    value is a number other than 0 and NaN, and to 0 when there is
    none: for the implied rate the nested field then the top-level one;
    for the underlying rate the same two in the job and, in the
    dashboard, the nested aggregated rate after them; for the liquidity
    the nested field then the top-level figure.  A record with no
    details object resolves from the remaining sources. *)
Theorem yield_resolution (m : Market) :
  resolve_impliedApy m
  = first_truthy [details_field Details.impliedApy m; impliedApy m] ∧
  Snapshot.resolve_underlyingApy m
  = first_truthy [details_field Details.underlyingApy m; underlyingApy m] ∧
  App.resolve_underlyingApy m
  = first_truthy [details_field Details.underlyingApy m; underlyingApy m;
                  details_field Details.aggregatedApy m] ∧
  App.resolve_tvl m
  = first_truthy [details_field Details.liquidity m; liquidity_usd m] ∧
  (details m = None →
   resolve_impliedApy m = first_truthy [impliedApy m] ∧
   App.resolve_underlyingApy m = first_truthy [underlyingApy m]).
Proof.
  assert (H1 : ∀ a rest,
             first_truthy (a :: rest)
             = if JS.truthy a then default 0%float a else first_truthy rest) by done.
  assert (H0 : ∀ a, JS.or_num a 0 = if JS.truthy a then default 0%float a else 0%float).
  { intros [x|]; [|done]. unfold JS.or_num, JS.truthy. by destruct (JS.truthy_num x). }
  assert (H2 : ∀ a b, JS.or_num (JS.or_val a b) 0 = first_truthy [a; b]).
  { intros a b. rewrite !H1, H0. unfold JS.or_val.
    destruct (JS.truthy a) eqn:Ha; cbv iota; by rewrite ?Ha. }
  assert (H3 : ∀ a b c, JS.or_num (JS.or_val (JS.or_val a b) c) 0 = first_truthy [a; b; c]).
  { intros a b c. rewrite !H1, H0. unfold JS.or_val.
    destruct (JS.truthy a) eqn:Ha; cbv iota; rewrite ?Ha; [done|].
    destruct (JS.truthy b) eqn:Hb; cbv iota; by rewrite ?Hb. }
  unfold resolve_impliedApy, Snapshot.resolve_underlyingApy,
    App.resolve_underlyingApy, App.resolve_tvl.
  rewrite !H3, !H2. repeat (split; [done|]).
  intros Hd. unfold details_field. rewrite Hd. done.
Qed.

(** C10: precedence goes by the truthiness of the value, not by the
    presence of the field.  A nested implied rate that is truthy is the
    result, whatever the top-level one.  A nested implied rate that is
    there but is 0 (or NaN) counts as missing: the result is the
    top-level implied rate when that one is truthy, and 0 when it is
    missing or falsy too; the yield of the dashboard point and of the
    job follow.  The same holds down the chain of the underlying rate:
    a truthy nested value is the result, a falsy one gives way to the
    top-level one and, in the dashboard, a falsy top-level value to
    the aggregated one. *)
Theorem falsy_nested_value_is_skipped (m : Market) :
  (∀ x, details_field Details.impliedApy m = Some x → JS.truthy_num x = true →
        resolve_impliedApy m = x) ∧
  (∀ x, details_field Details.impliedApy m = Some x →
        PrimFloat.eqb x 0 = true ∨ PrimFloat.is_nan x = true →
        resolve_impliedApy m = JS.or_num (impliedApy m) 0 ∧
        (∀ y, impliedApy m = Some y → JS.truthy_num y = true → resolve_impliedApy m = y) ∧
        (JS.truthy (impliedApy m) = false → resolve_impliedApy m = 0%float) ∧
        (∀ Date_parse now,
           App.impliedYield (App.point Date_parse now m)
           = (JS.or_num (impliedApy m) 0 * 100)%float) ∧
        (∀ t, Snapshot.market t = m →
              Snapshot.impliedYield t = (JS.or_num (impliedApy m) 0 * 100)%float)) ∧
  (∀ x, details_field Details.underlyingApy m = Some x → JS.truthy_num x = true →
        Snapshot.resolve_underlyingApy m = x ∧ App.resolve_underlyingApy m = x) ∧
  (JS.truthy (details_field Details.underlyingApy m) = false →
   Snapshot.resolve_underlyingApy m = JS.or_num (underlyingApy m) 0 ∧
   App.resolve_underlyingApy m
   = JS.or_num (JS.or_val (underlyingApy m) (details_field Details.aggregatedApy m)) 0 ∧
   (∀ y, underlyingApy m = Some y → JS.truthy_num y = true →
         Snapshot.resolve_underlyingApy m = y ∧ App.resolve_underlyingApy m = y) ∧
   (JS.truthy (underlyingApy m) = false →
    Snapshot.resolve_underlyingApy m = 0%float ∧
    App.resolve_underlyingApy m = JS.or_num (details_field Details.aggregatedApy m) 0)).
Proof.
  assert (Hskip : ∀ a b, JS.truthy a = false → JS.or_val a b = b).
  { intros a b Ha. unfold JS.or_val. by rewrite Ha. }
  assert (Hwin : ∀ x b, JS.truthy_num x = true → JS.or_val (Some x) b = Some x).
  { intros x b Hx. unfold JS.or_val. simpl. by rewrite Hx. }
  assert (Hnum : ∀ x, JS.truthy_num x = true → JS.or_num (Some x) 0 = x).
  { intros x Hx. unfold JS.or_num. by rewrite Hx. }
  assert (Hzero : ∀ a, JS.truthy a = false → JS.or_num a 0 = 0%float).
  { intros [x|] Ha; [|done]. unfold JS.or_num. simpl in Ha. by rewrite Ha. }
  split; [|split; [|split]].
  - intros x Hx Ht. unfold resolve_impliedApy. by rewrite Hx, Hwin, Hnum.
  - intros x Hx Hfalsy.
    assert (Ht : JS.truthy_num x = false).
    { unfold JS.truthy_num. destruct Hfalsy as [-> | ->]; [done|].
      by destruct (PrimFloat.eqb x 0). }
    assert (resolve_impliedApy m = JS.or_num (impliedApy m) 0) as Hr.
    { unfold resolve_impliedApy. rewrite Hskip; [done|]. by rewrite Hx. }
    split; [done|]. split; [|split; [|split]].
    + intros y Hy Hty. by rewrite Hr, Hy, Hnum.
    + intros Hfalse. by rewrite Hr, Hzero.
    + intros Date_parse now. simpl. by rewrite Hr.
    + intros t <-. unfold Snapshot.impliedYield. by rewrite Hr.
  - intros x Hx Ht. unfold Snapshot.resolve_underlyingApy, App.resolve_underlyingApy.
    rewrite Hx, !Hwin by done. by rewrite Hnum.
  - intros Hu. unfold Snapshot.resolve_underlyingApy, App.resolve_underlyingApy.
    rewrite (Hskip _ (underlyingApy m) Hu). repeat (split; [done|]). split.
    + intros y Hy Hty. rewrite Hy, Hwin by done. by rewrite Hnum.
    + intros Ht2. rewrite (Hskip _ _ Ht2). by rewrite Hzero.
Qed.

(** C10, the example: nested 0, top-level 0.05, resolved 0.05; and with
    the two values the other way round, nested 0.05 and top-level 0,
    resolved 0.05 again. *)
Lemma falsy_nested_value_sample :
  resolve_impliedApy zero_nested = 0.05%float ∧
  resolve_impliedApy nested_first = 0.05%float.
Proof.
  split.
  - destruct (falsy_nested_value_is_skipped zero_nested) as (_ & Hfalsy & _).
    destruct (Hfalsy 0%float) as (-> & _).
    + reflexivity.
    + left. reflexivity.
    + reflexivity.
  - destruct (falsy_nested_value_is_skipped nested_first) as (Htruthy & _).
    apply Htruthy; reflexivity.
Defined.

(** * Fewer than two candidates *)
Section Degenerate.
Context (Date_parse : string -> option Z).

Lemma processMarkets_single (now : Z) (markets : list Market) (st : App.State) (p : App.Point) :
  App.validStructure Date_parse now markets = [p] →
  App.processMarkets Date_parse now markets st
  = (if JS.truthy_num (App.underlyingYield p)
     then App.setUnderlyingYield (JS.toFixed (App.underlyingYield p) 2)
     else id)
      (App.setTermSpread 0%float (App.setTermStructure [p] st)).
Proof.
  unfold App.validStructure, App.processMarkets. intros Hv.
  destruct (App.sorted Date_parse markets) as [|m ms] eqn:Hs; [done|].
  rewrite Hv. simpl. by destruct (JS.truthy_num (App.underlyingYield p)).
Qed.

Lemma processMarkets_none (now : Z) (markets : list Market) (st : App.State) :
  App.validStructure Date_parse now markets = [] →
  App.processMarkets Date_parse now markets st = st ∨
  App.processMarkets Date_parse now markets st
  = App.setError (Some "No valid markets with positive days to expiry") st.
Proof.
  unfold App.validStructure, App.processMarkets. intros Hv.
  destruct (App.sorted Date_parse markets) as [|m ms] eqn:Hs; [by left|].
  rewrite Hv. by right.
Qed.

End Degenerate.

(** C4 as stated fails.  In the job, one candidate left gives a body
    with neither a [term_spread] nor a [reason].  In the dashboard, a
    refresh that finds no valid candidate keeps the structure shown
    before, which here holds one point, instead of an empty one. *)
Lemma degenerate_results_differ :
  let out := Snapshot.handler IsoDate.parse one_expired asOf Supabase.Up ∅ in
  length (Snapshot.sorted IsoDate.parse asOf (Snapshot.susdeMarkets one_expired)) = 1%nat ∧
  field "term_spread" (body out.1) = None ∧
  field "reason" (body out.1) = None ∧
  App.validStructure IsoDate.parse asOf running_out = [] ∧
  length (App.termStructure (App.processMarkets IsoDate.parse asOf running_out shown_before))
  = 1%nat.
Proof. vm_compute. repeat split. Qed.

(** C4, amended: with fewer than two candidates left no error is
    raised.  The job stores nothing and answers with status 200 and a
    body of two entries, a message and a count: below two sUSDe markets
    found, the number of those under [marketsFound]; else the number of
    candidates left under [validMarkets]; the body has no reason code,
    no [term_spread] and no error.  The dashboard, with exactly one
    valid point, shows that point and a spread of 0; with none it
    leaves the structure and the spread as they were. *)
Theorem fewer_than_two_candidates
        (Date_parse : string -> option Z) (net : Z -> Snapshot.Fetched) (now : Z)
        (link : Supabase.Link) (tbl : gmap string Supabase.Columns)
        (markets : list Market) (st : App.State) :
  let cands := Snapshot.sorted Date_parse now (Snapshot.susdeMarkets net) in
  let out := Snapshot.handler Date_parse net now link tbl in
  let st' := App.processMarkets Date_parse now markets st in
  ((length cands < 2)%nat →
   out.2 = tbl ∧ status out.1 = 200 ∧
   ((length (Snapshot.susdeMarkets net) < 2)%nat ∧
    body out.1 = [("message", JStr "Not enough sUSDe markets to calculate spread");
                  ("marketsFound", JLen (length (Snapshot.susdeMarkets net)))]
    ∨ (2 <= length (Snapshot.susdeMarkets net))%nat ∧
      body out.1 = [("message", JStr "Not enough valid sUSDe markets");
                    ("validMarkets", JLen (length cands))]) ∧
   field "reason" (body out.1) = None ∧ field "term_spread" (body out.1) = None ∧
   field "error" (body out.1) = None) ∧
  (∀ p, App.validStructure Date_parse now markets = [p] →
        App.termStructure st' = [p] ∧ App.termSpread st' = 0%float ∧
        App.error st' = App.error st) ∧
  (App.validStructure Date_parse now markets = [] →
   App.termStructure st' = App.termStructure st ∧
   App.termSpread st' = App.termSpread st).
Proof.
  intros cands out st'. split; [|split].
  - intros Hlen.
    destruct (handler_not_enough_body Date_parse net now link tbl Hlen)
      as (Htbl & Hstatus & Hbody).
    split; [done|]. split; [done|]. split; [done|].
    by destruct Hbody as [[_ Hbody] | [_ Hbody]]; subst out; rewrite Hbody.
  - intros p Hp. subst st'. rewrite (processMarkets_single _ _ _ _ _ Hp).
    by destruct (JS.truthy_num (App.underlyingYield p)).
  - intros Hnone. subst st'.
    by destruct (processMarkets_none Date_parse now markets st Hnone) as [-> | ->].
Qed.

(** C4, an instance: one market expired and one running.  The job
    stores nothing; the dashboard shows one point and a spread of 0. *)
Lemma fewer_than_two_sample :
  (Snapshot.handler IsoDate.parse one_expired asOf Supabase.Up ∅).2 = ∅ ∧
  App.termSpread (App.processMarkets IsoDate.parse asOf (delivered (one_expired 1)) App.initial)
  = 0%float ∧
  length (App.termStructure
            (App.processMarkets IsoDate.parse asOf (delivered (one_expired 1)) App.initial))
  = 1%nat.
Proof.
  destruct (fewer_than_two_candidates IsoDate.parse one_expired asOf Supabase.Up ∅
              (delivered (one_expired 1)) App.initial) as (Hjob & Hone & _).
  split.
  - apply Hjob. vm_compute. lia.
  - destruct (Hone (App.point IsoDate.parse asOf
                      (quoted "sUSDe" "2026-03-26T00:00:00.000Z" 0.03)))
      as (Hs & Hspread & _); [vm_compute; reflexivity|].
    split; [exact Hspread|]. by rewrite Hs.
Defined.

(** * The dashboard on the sample feed *)

Example dashboard_two_maturities :
  let st := App.fetchPendleMarkets IsoDate.parse
              (App.Data (Some (delivered (two_maturities 1))) None) asOf App.initial in
  App.termSpread st = (-3)%float ∧ length (App.termStructure st) = 2%nat ∧
  App.maturity <$> App.termStructure st = [App.D 10; App.M (Some 6)] ∧
  App.error st = None.
Proof. vm_compute. repeat split. Qed.

Example dashboard_no_markets :
  App.error (App.fetchPendleMarkets IsoDate.parse (App.Data None (Some [])) asOf App.initial)
  = Some "No markets data received from API" ∧
  App.error (App.fetchPendleMarkets IsoDate.parse (App.NotOk 503) asOf App.initial)
  = Some "API Error: 503".
Proof. vm_compute. repeat split. Qed.

(** * Further properties of the daily job *)
Set Warnings "-clear-no-such-hyp".

Section JobFacts.
Context (Date_parse : string -> option Z).

(** The two ways a run ends. *)
Lemma handler_cases (net : Z -> Snapshot.Fetched) (now : Z)
      (link : Supabase.Link) (tbl : gmap string Supabase.Columns) :
  let cands := Snapshot.sorted Date_parse now (Snapshot.susdeMarkets net) in
  let out := Snapshot.handler Date_parse net now link tbl in
  ((length cands < 2)%nat ∧
   ∃ message key count,
     out = ({| status := 200; body := [("message", JStr message); (key, JLen count)] |}, tbl)
     ∧ (key = "marketsFound" ∨ key = "validMarkets"))
  ∨ ((2 <= length cands)%nat ∧
     ∃ front back,
       cands !! 0%nat = Some front ∧ cands !! (length cands - 1)%nat = Some back ∧
       let r := Snapshot.record now front back (length cands) in
       out = match link with
             | Supabase.Up =>
                 ({| status := 200;
                     body := [("success", JBool true); ("date", JStr (date r));
                              ("term_spread", JNum (term_spread r));
                              ("front_apy", JNum (front_month_apy r));
                              ("back_apy", JNum (back_month_apy r));
                              ("markets", JLen (length cands))] |},
                  <[date r := Supabase.columns r]> tbl)
             | Supabase.Refusing text =>
                 (Snapshot.failure ("Supabase error: " ++ text), tbl)
             | Supabase.Down message => (Snapshot.failure message, tbl)
             end).
Proof.
  intros cands out.
  destruct (Nat.lt_ge_cases (length cands) 2) as [Hlt|Hge].
  - left. split; [done|].
    destruct (handler_not_enough Date_parse net now link tbl Hlt)
      as (message & key & count & Hout & _ & Hkey). eauto 10.
  - right. split; [done|].
    destruct (lookup_lt_is_Some_2 cands 0%nat) as [front Hfront]; [lia|].
    destruct (lookup_lt_is_Some_2 cands (length cands - 1)%nat) as [back Hback]; [lia|].
    exists front, back. repeat (split; [done|]).
    apply (handler_stores Date_parse net now link tbl front back Hge Hfront Hback).
Qed.

End JobFacts.

(** X1: how a run of the job ends.  It answers 500 exactly when two or
    more candidates are left and the storage request fails, and then the
    table is as before and the body holds the error only; it reports
    success exactly when two or more candidates are left and the storage
    request succeeds; it answers with the informational message exactly
    when fewer than two candidates are left. *)
Theorem job_outcomes
        (Date_parse : string -> option Z) (net : Z -> Snapshot.Fetched) (now : Z)
        (link : Supabase.Link) (tbl : gmap string Supabase.Columns) :
  let cands := Snapshot.sorted Date_parse now (Snapshot.susdeMarkets net) in
  let out := Snapshot.handler Date_parse net now link tbl in
  (status out.1 = 500 ↔ (2 <= length cands)%nat ∧ link ≠ Supabase.Up) ∧
  (field "success" (body out.1) = Some (JBool true) ↔
   (2 <= length cands)%nat ∧ link = Supabase.Up) ∧
  (is_Some (field "message" (body out.1)) ↔ (length cands < 2)%nat) ∧
  (status out.1 = 500 →
   out.2 = tbl ∧ ∃ message, body out.1 = [("error", JStr message)]) ∧
  (status out.1 = 200 ∨ status out.1 = 500).
Proof.
  intros cands out.
  destruct (handler_cases Date_parse net now link tbl)
    as [(Hlt & message & key & count & Hout & Hkey)
       |(Hge & front & back & _ & _ & Hout)]; fold cands in Hlt || fold cands in Hge.
  - subst out. rewrite Hout.
    destruct Hkey as [-> | ->]; simpl; repeat split; eauto; naive_solver lia.
  - subst out. rewrite Hout.
    destruct link; simpl; repeat split; eauto; naive_solver lia.
Qed.

(** X2: a run of the job leaves every row of another date as it was,
    removes no row, and changes the table only when it reports success. *)
Theorem job_touches_today_only
        (Date_parse : string -> option Z) (net : Z -> Snapshot.Fetched) (now : Z)
        (link : Supabase.Link) (tbl : gmap string Supabase.Columns) :
  let out := Snapshot.handler Date_parse net now link tbl in
  (∀ k, k ≠ Snapshot.today now → out.2 !! k = tbl !! k) ∧
  (∀ k, is_Some (tbl !! k) → is_Some (out.2 !! k)) ∧
  (out.2 ≠ tbl → field "success" (body out.1) = Some (JBool true)).
Proof.
  intros out.
  destruct (handler_cases Date_parse net now link tbl)
    as [(_ & message & key & count & Hout & _)
       |(_ & front & back & _ & _ & Hout)]; subst out; rewrite Hout.
  - done.
  - destruct link; simpl; [|done|done].
    split; [|split; [|done]].
    + intros k Hk. by rewrite lookup_insert_ne.
    + intros k Hk. destruct (decide (Snapshot.today now = k)) as [<-|Hne].
      * rewrite lookup_insert_eq. eauto.
      * by rewrite lookup_insert_ne.
Qed.

(** X3: when the job reports success, the row stored under today's date
    carries the figures of the report: its spread and its front and back
    yields are the ones in the body, the number of markets reported is
    its market count, at least two and at most the number of markets
    the chains delivered. *)
Theorem job_report_matches_row
        (Date_parse : string -> option Z) (net : Z -> Snapshot.Fetched) (now : Z)
        (link : Supabase.Link) (tbl : gmap string Supabase.Columns) :
  let out := Snapshot.handler Date_parse net now link tbl in
  field "success" (body out.1) = Some (JBool true) →
  ∃ r,
    out.2 !! Snapshot.today now = Some (Supabase.columns r) ∧
    field "date" (body out.1) = Some (JStr (Snapshot.today now)) ∧
    field "term_spread" (body out.1) = Some (JNum (term_spread r)) ∧
    field "front_apy" (body out.1) = Some (JNum (front_month_apy r)) ∧
    field "back_apy" (body out.1) = Some (JNum (back_month_apy r)) ∧
    field "markets" (body out.1) = Some (JLen (markets_count r)) ∧
    (2 <= markets_count r
     <= length (Snapshot.allMarkets (Snapshot.responses net)))%nat.
Proof.
  intros out.
  destruct (handler_cases Date_parse net now link tbl)
    as [(_ & message & key & count & Hout & Hkey)
       |(Hge & front & back & _ & _ & Hout)]; subst out; rewrite Hout.
  - by destruct Hkey as [-> | ->].
  - destruct link; simpl; [|done|done]. intros _.
    eexists (Snapshot.record now front back _).
    split; [apply lookup_insert_eq|]. simpl. repeat (split; [done|]).
    etrans; [apply candidates_length|]. apply List.filter_length_le.
Qed.

(** X3, an instance: the two-maturity feed. *)
Lemma job_report_matches_row_sample :
  ∃ r, (Snapshot.handler IsoDate.parse two_maturities asOf Supabase.Up ∅).2 !! "2026-01-01"
       = Some (Supabase.columns r) ∧ term_spread r = (-3)%float ∧ markets_count r = 2%nat.
Proof.
  destruct (job_report_matches_row IsoDate.parse two_maturities asOf Supabase.Up ∅)
    as (r & Hrow & _ & Hspread & _ & _ & Hcount & _).
  - vm_compute. reflexivity.
  - exists r. split; [exact Hrow|].
    vm_compute in Hspread, Hcount.
    split; [by injection Hspread|by injection Hcount].
Defined.

Section FeedOrder.
Context (Date_parse : string -> option Z).

Lemma filter_Permutation {A : Type} (f : A -> bool) (l1 l2 : list A) :
  l1 ≡ₚ l2 → List.filter f l1 ≡ₚ List.filter f l2.
Proof.
  induction 1 as [|x l1 l2 _ IH|x y l|l1 l2 l3 _ IH1 _ IH2]; simpl.
  - done.
  - destruct (f x); by rewrite IH.
  - destruct (f x), (f y); try done. apply Permutation_swap.
  - by etrans.
Qed.

Lemma candidates_Permutation (now : Z) (l1 l2 : list Snapshot.Tagged) :
  l1 ≡ₚ l2 → Snapshot.sorted Date_parse now l1 ≡ₚ Snapshot.sorted Date_parse now l2.
Proof.
  intros Hp. unfold Snapshot.sorted.
  apply filter_Permutation. rewrite !sort_Permutation. by apply filter_Permutation.
Qed.

End FeedOrder.

(** X4: the order in which the feed lists the markets does not matter
    when their expiries are dates that differ: two feeds that list the
    same markets give the same candidates in the same order, hence the
    same front and back market. *)
Theorem candidates_ignore_feed_order
        (Date_parse : string -> option Z) (now : Z) (l1 l2 : list Snapshot.Tagged) :
  l1 ≡ₚ l2 →
  (∀ m, m ∈ l1 → Snapshot.has_expiry m = true →
        is_Some (Snapshot.expiry_time Date_parse m)) →
  (∀ a b, a ∈ l1 → b ∈ l1 → Snapshot.has_expiry a = true → Snapshot.has_expiry b = true →
          Snapshot.expiry_time Date_parse a = Snapshot.expiry_time Date_parse b → a = b) →
  Snapshot.sorted Date_parse now l1 = Snapshot.sorted Date_parse now l2.
Proof.
  intros Hperm Hparse Hdistinct.
  apply (StronglySorted_unique_strong
           (key_le (fun m => default 0 (Snapshot.expiry_time Date_parse m)))).
  - intros a b Ha Hb Hab Hba. unfold key_le in Hab, Hba.
    rewrite <- (candidates_Permutation Date_parse now _ _ Hperm) in Hb.
    apply candidates_elem_of in Ha as (Ha & Hea & Hda).
    apply candidates_elem_of in Hb as (Hb & Heb & Hdb).
    apply days_positive_iff in Hda as (ta & Hta & _).
    apply days_positive_iff in Hdb as (tb & Htb & _).
    apply Hdistinct; try done.
    rewrite Hta, Htb in Hab, Hba |- *. simpl in Hab, Hba. f_equal. lia.
  - by apply candidates_sorted.
  - apply candidates_sorted. intros m Hm. apply Hparse. by rewrite Hperm.
  - by apply candidates_Permutation.
Qed.

(** X4, an instance: the two maturities listed back first. *)
Lemma candidates_ignore_feed_order_sample :
  let near := on_chain "Ethereum" 1 (quoted "sUSDe" "2026-01-11T00:00:00.000Z" 0.04) in
  let far := on_chain "Ethereum" 1 (quoted "sUSDe" "2026-06-30T00:00:00.000Z" 0.01) in
  Snapshot.sorted IsoDate.parse asOf [far; near]
  = Snapshot.sorted IsoDate.parse asOf [near; far].
Proof.
  intros near far.
  apply candidates_ignore_feed_order.
  - apply Permutation_swap.
  - intros m Hm _. apply list_elem_of_In in Hm.
    destruct Hm as [<-|[<-|[]]]; vm_compute; eauto.
  - intros a b Ha Hb _ _. apply list_elem_of_In in Ha, Hb.
    destruct Ha as [<-|[<-|[]]], Hb as [<-|[<-|[]]]; vm_compute; congruence.
Defined.

(** * Further properties of the history endpoint *)
Section HistoryFacts.

Lemma rows_length (tbl : gmap string Supabase.Columns) :
  length (Supabase.rows tbl) = size tbl.
Proof.
  unfold Supabase.rows.
  by rewrite length_fmap, merge_sort_Permutation, length_map_to_list.
Qed.

(** What a request other than [OPTIONS] that is answered with data was
    given by the store. *)
Lemma handler_data (method : string) (query_days : option string) (link : Supabase.Link)
      (tbl : gmap string Supabase.Columns) (data : list Snapshot) :
  String.eqb method "OPTIONS" = false →
  field "data" (body (History.handler method query_days link tbl)) = Some (JRows data) →
  ∃ n, History.limitedDays query_days = JS.Finite n ∧ 0 <= n <= 365 ∧
       data = reverse (take (Z.to_nat n) (Supabase.rows tbl)) ∧
       body (History.handler method query_days link tbl)
       = [("success", JBool true); ("count", JLen (length data)); ("data", JRows data)].
Proof.
  intros Hmethod. unfold History.handler, Supabase.select_desc. rewrite Hmethod.
  destruct link; simpl; [|done|done].
  destruct (limitedDays_cases query_days) as [(n & -> & Hn & _) | ->]; [|done].
  destruct (Z.ltb_spec n 0); simpl; [done|].
  intros [= <-]. exists n. split; [done|]. split; [lia|done].
Qed.

(** The newest row comes first. *)
Lemma rows_head (tbl : gmap string Supabase.Columns) (r : Snapshot) :
  tbl !! date r = Some (Supabase.columns r) →
  (∀ k, is_Some (tbl !! k) → String.leb k (date r) = true) →
  ∃ rest, Supabase.rows tbl = r :: rest.
Proof.
  intros Hr Hmax.
  pose proof (rows_sorted tbl) as Hs.
  pose proof (proj2 (rows_elem_of tbl r) Hr) as Hin.
  destruct (Supabase.rows tbl) as [|h rest] eqn:Hrows; [by apply elem_of_nil in Hin|].
  exists rest. f_equal.
  assert (Hh : tbl !! date h = Some (Supabase.columns h)).
  { apply rows_elem_of. rewrite Hrows. apply list_elem_of_here. }
  assert (date h = date r) as Hd.
  { apply String.leb_antisym; [apply Hmax; eauto|].
    apply elem_of_cons in Hin as [->|Hin]; [by destruct (String.leb_total (date h) (date h))|].
    apply StronglySorted_inv in Hs as [_ Hall].
    rewrite Forall_forall in Hall. by apply Hall. }
  rewrite Hd, Hr in Hh. apply (inj Some) in Hh.
  rewrite <- (row_columns h), <- (row_columns r). by rewrite Hd, Hh.
Qed.

End HistoryFacts.

(** X5: the history serves what the job stored.  After a run that
    stores a record, on a table with no date after today, a read of one
    day or more returns a sequence whose last element is the record of
    today as stored. *)
Theorem job_then_history
        (Date_parse : string -> option Z) (net : Z -> Snapshot.Fetched) (now : Z)
        (tbl : gmap string Supabase.Columns) (method : string) (query_days : option string) :
  let cands := Snapshot.sorted Date_parse now (Snapshot.susdeMarkets net) in
  let out := Snapshot.handler Date_parse net now Supabase.Up tbl in
  String.eqb method "OPTIONS" = false →
  (2 <= length cands)%nat →
  (∀ k, is_Some (tbl !! k) → String.leb k (Snapshot.today now) = true) →
  JS.leb (JS.Finite 1) (History.limitedDays query_days) = true →
  ∃ r older,
    out.2 !! Snapshot.today now = Some (Supabase.columns r) ∧
    date r = Snapshot.today now ∧
    field "term_spread" (body out.1) = Some (JNum (term_spread r)) ∧
    field "data" (body (History.handler method query_days Supabase.Up out.2))
    = Some (JRows (older ++ [r])).
Proof.
  intros cands out Hmethod Hge Hmax Hdays.
  destruct (handler_cases Date_parse net now Supabase.Up tbl)
    as [(Hlt & _)|(_ & front & back & _ & _ & Hout)]; [fold cands in Hlt; lia|].
  fold cands in Hout. simpl in Hout.
  set (r := Snapshot.record now front back (length cands)) in *.
  assert (Hdate : date r = Snapshot.today now) by done.
  subst out. rewrite Hout. simpl.
  destruct (rows_head (<[Snapshot.today now := Supabase.columns r]> tbl) r) as [rest Hrows].
  { rewrite Hdate. apply lookup_insert_eq. }
  { intros k Hk. rewrite Hdate.
    destruct (decide (Snapshot.today now = k)) as [<-|Hne].
    - by destruct (String.leb_total (Snapshot.today now) (Snapshot.today now)).
    - rewrite lookup_insert_ne in Hk by done. by apply Hmax. }
  destruct (limitedDays_cases query_days) as [(limit & Hq & _) | Hq];
    rewrite Hq in Hdays; [|done].
  simpl in Hdays. apply Z.leb_le in Hdays.
  exists r, (reverse (take (Z.to_nat limit - 1) rest)).
  split; [apply lookup_insert_eq|]. split; [done|]. split; [done|].
  unfold History.handler, Supabase.select_desc. rewrite Hmethod, Hq.
  destruct (Z.ltb_spec limit 0); [lia|]. simpl.
  rewrite Hrows.
  destruct (Z.to_nat limit) as [|n] eqn:Hn; [lia|].
  simpl. rewrite reverse_cons. by rewrite Nat.sub_0_r.
Qed.

(** X5, an instance: a table holding 2025-12-31, the job run on
    2026-01-01, a read of thirty days. *)
Lemma job_then_history_sample :
  let tbl := (Supabase.upsert Supabase.Up (snapshot_of "2025-12-31" (-3)) ∅).2 in
  let out := Snapshot.handler IsoDate.parse two_maturities asOf Supabase.Up tbl in
  ∃ r older,
    date r = "2026-01-01" ∧
    field "data" (body (History.handler "GET" (Some "30") Supabase.Up out.2))
    = Some (JRows (older ++ [r])).
Proof.
  intros tbl out.
  destruct (job_then_history IsoDate.parse two_maturities asOf tbl "GET" (Some "30"))
    as (r & older & _ & Hdate & _ & Hdata).
  - reflexivity.
  - vm_compute. lia.
  - intros k Hk. subst tbl. simpl in Hk.
    destruct (decide ("2025-12-31" = k)) as [<-|Hne]; [vm_compute; reflexivity|].
    rewrite lookup_insert_ne, lookup_empty in Hk by done. by destruct Hk.
  - vm_compute. reflexivity.
  - exists r, older. split; [|exact Hdata]. rewrite Hdate. vm_compute. reflexivity.
Defined.

(** X6: a read that is answered with data returns the newest rows: as
    many as the day count allows and the table holds, never more than
    365, each of them a row of the table, and every row of the table
    that is left out is no later than any row returned.  The count in
    the body is the number of rows returned. *)
Theorem history_returns_newest
        (method : string) (query_days : option string) (link : Supabase.Link)
        (tbl : gmap string Supabase.Columns) (data : list Snapshot) :
  String.eqb method "OPTIONS" = false →
  field "data" (body (History.handler method query_days link tbl)) = Some (JRows data) →
  (∃ n, History.limitedDays query_days = JS.Finite n ∧ 0 <= n ∧
        length data = Nat.min (Z.to_nat n) (size tbl)) ∧
  (length data <= 365)%nat ∧
  field "count" (body (History.handler method query_days link tbl))
  = Some (JLen (length data)) ∧
  (∀ x, x ∈ data → tbl !! date x = Some (Supabase.columns x)) ∧
  (∀ x y, x ∈ data → tbl !! date y = Some (Supabase.columns y) → y ∉ data →
          String.leb (date y) (date x) = true).
Proof.
  intros Hmethod Hdata.
  destruct (handler_data method query_days link tbl data Hmethod Hdata)
    as (limit & Hq & Hlimit & -> & Hbody).
  set (n := Z.to_nat limit) in *.
  assert (Hlen : length (reverse (take n (Supabase.rows tbl))) = Nat.min n (size tbl)).
  { by rewrite length_reverse, length_take, rows_length. }
  split; [exists limit; repeat split; [done|lia|done]|]. split; [|split; [|split]].
  - rewrite Hlen. lia.
  - by rewrite Hbody.
  - intros x Hx. rewrite elem_of_reverse in Hx.
    apply rows_elem_of. rewrite <- (take_drop n (Supabase.rows tbl)).
    apply elem_of_app. by left.
  - intros x y Hx Hy Hout. rewrite elem_of_reverse in Hx, Hout.
    apply rows_elem_of in Hy.
    pose proof (rows_sorted tbl) as Hs.
    rewrite <- (take_drop n (Supabase.rows tbl)) in Hs, Hy.
    apply elem_of_app in Hy as [Hy|Hy]; [done|].
    by apply (StronglySorted_app_1_elem_of _ _ _ x y Hs).
Qed.

(** X6, an instance: two of three days. *)
Lemma history_returns_newest_sample :
  ∃ data,
    field "data" (body (History.handler "GET" (Some "2") Supabase.Up three_days))
    = Some (JRows data) ∧ length data = 2%nat.
Proof.
  eexists. split; [vm_compute; reflexivity|].
  destruct (history_returns_newest "GET" (Some "2") Supabase.Up three_days
              [snapshot_of "2026-01-01" (-1); snapshot_of "2026-01-02" (-2)])
    as [(n & Hq & _ & Hlen) _]; [reflexivity..|].
  refine (eq_trans Hlen _). vm_compute in Hq. injection Hq as <-. vm_compute. reflexivity.
Defined.

Section DecimalFacts.

Lemma digits_prefix_step (c : ascii) (k : Z) (rest : string) (acc : option Z) :
  JS.digit_of 10 c = Some k →
  JS.digits_prefix 10 (String c rest) acc
  = JS.digits_prefix 10 rest (Some (10 * default 0 acc + k)).
Proof. intros Hc. cbn [JS.digits_prefix]. by rewrite Hc. Qed.

(** Reading a numeral from the left is the accumulation that defines
    its value. *)
Lemma digits_of_uint (d : Decimal.uint) (acc : nat) :
  JS.digits_prefix 10 (NilEmpty.string_of_uint d) (Some (Z.of_nat acc))
  = Some (Z.of_nat (Nat.of_uint_acc d acc)).
Proof.
  revert acc.
  induction d as [|d IH|d IH|d IH|d IH|d IH|d IH|d IH|d IH|d IH|d IH]; intros acc;
    [done|..];
    cbn [NilEmpty.string_of_uint Nat.of_uint_acc];
    (erewrite digits_prefix_step; [|vm_compute; reflexivity]); rewrite <- IH;
    do 2 f_equal; rewrite Nat.tail_mul_spec; simpl default; lia.
Qed.

Lemma to_uint_cases (n : nat) : Nat.to_uint n ≠ Decimal.Nil.
Proof.
  intros Hnil. pose proof (DecimalNat.Unsigned.of_to n) as Hn.
  rewrite Hnil in Hn. simpl in Hn. subst n. discriminate.
Qed.

Lemma parseInt_decimal (n : nat) :
  JS.parseInt (Some (decimal n)) = JS.round64 (Z.of_nat n).
Proof.
  unfold decimal.
  pose proof (DecimalNat.Unsigned.of_to n) as Hn.
  pose proof (to_uint_cases n) as Hnil.
  unfold Nat.of_uint in Hn.
  pose proof (digits_of_uint (Nat.to_uint n) 0) as Hd. rewrite Hn in Hd.
  assert (Hparse : JS.parseInt (Some (NilEmpty.string_of_uint (Nat.to_uint n)))
                   = match JS.digits_prefix 10 (NilEmpty.string_of_uint (Nat.to_uint n))
                                            (Some (Z.of_nat 0)) with
                     | Some v => JS.round64 (1 * v)
                     | None => JS.NaN
                     end).
  { destruct (Nat.to_uint n) as [|d|d|d|d|d|d|d|d|d|d]; [done|..].
    1: destruct d.
    all: reflexivity. }
  rewrite Hparse, Hd. f_equal. lia.
Qed.

(** Below [2^53] in magnitude an integer is a binary64 number. *)
Lemma round64_small (z : Z) : Z.abs z < 2 ^ 53 → JS.round64 z = JS.Finite z.
Proof. intros Hz. unfold JS.round64. by destruct (Z.ltb_spec (Z.abs z) (2 ^ 53)); [|lia]. Qed.

(** From [2^53] on the nearest binary64 number is of magnitude [2^53]
    at least, or is an infinity, and has the sign of the integer. *)
Lemma round64_large (z : Z) :
  2 ^ 53 <= Z.abs z →
  (∃ v, JS.round64 z = JS.Finite (Z.sgn z * v) ∧ 2 ^ 53 <= v)
  ∨ JS.round64 z = JS.Infinity (z <? 0).
Proof.
  intros Hz. unfold JS.round64.
  destruct (Z.ltb_spec (Z.abs z) (2 ^ 53)); [lia|].
  set (a := Z.abs z) in *. set (e := Z.log2 a - 52).
  set (q := if _ : bool then a / 2 ^ e else a / 2 ^ e + 1).
  destruct (2 ^ 1024 <=? q * 2 ^ e); [by right|]. left.
  exists (q * 2 ^ e). split; [done|].
  assert (Hlog : 53 <= Z.log2 a).
  { change 53 with (Z.log2 (2 ^ 53)). by apply Z.log2_le_mono. }
  destruct (Z.log2_spec a ltac:(lia)) as [Hlow _].
  assert (Hpow : 2 ^ Z.log2 a = 2 ^ e * 2 ^ 52).
  { rewrite <- Z.pow_add_r by lia. f_equal. lia. }
  assert (He : 2 <= 2 ^ e).
  { change 2 with (2 ^ 1) at 1. apply Z.pow_le_mono_r; lia. }
  assert (Hq : 2 ^ 52 <= a / 2 ^ e) by (apply Z.div_le_lower_bound; lia).
  assert (Hq' : 2 ^ 52 <= q) by (subst q; destruct (_ : bool); lia).
  change (2 ^ 53) with (2 ^ 52 * 2). apply Z.mul_le_mono_nonneg; lia.
Qed.

Lemma or_int_finite (w d : Z) : w ≠ 0 → JS.or_int (JS.Finite w) d = JS.Finite w.
Proof. by destruct w. Qed.

End DecimalFacts.

(** X7: the day count of a request, for every count written in
    decimal: the numeral reads as the binary64 number nearest to the
    count, which is the count itself below [2^53] (the numeral
    9007199254740993 reads as 9007199254740992); a count of 0 is served
    as 90 days and any other count [n] as the smaller of [n] and 365. *)
Theorem day_count_of_decimal (n : nat) :
  JS.parseInt (Some (decimal n)) = JS.round64 (Z.of_nat n) ∧
  (Z.of_nat n < 2 ^ 53 → JS.parseInt (Some (decimal n)) = JS.Finite (Z.of_nat n)) ∧
  JS.parseInt (Some "9007199254740993") = JS.Finite 9007199254740992 ∧
  History.limitedDays (Some (decimal n))
  = JS.Finite (if (n =? 0)%nat then 90 else Z.min (Z.of_nat n) 365).
Proof.
  split; [apply parseInt_decimal|]. split; [|split; [reflexivity|]].
  - intros Hn. rewrite parseInt_decimal. apply round64_small. lia.
  - unfold History.limitedDays. rewrite parseInt_decimal.
    destruct (Nat.eqb_spec n 0) as [->|Hn]; [done|].
    destruct (Z.lt_ge_cases (Z.of_nat n) (2 ^ 53)) as [Hsmall|Hlarge].
    + rewrite round64_small, or_int_finite by lia. done.
    + destruct (round64_large (Z.of_nat n)) as [(v & -> & Hv) | ->]; [lia| |].
      * rewrite Z.sgn_pos, Z.mul_1_l by lia.
        rewrite or_int_finite by lia. simpl. f_equal. lia.
      * destruct (Z.ltb_spec (Z.of_nat n) 0); [lia|]. simpl. f_equal. lia.
Qed.

(** * Further properties of the dashboard *)
Section DashboardFacts.
Context (Date_parse : string -> option Z).

(** What [processMarkets] leaves in the state, field by field. *)
Lemma processMarkets_structure (now : Z) (markets : list Market) (st : App.State) :
  App.termStructure (App.processMarkets Date_parse now markets st)
  = match App.validStructure Date_parse now markets with
    | [] => App.termStructure st
    | vs => vs
    end.
Proof.
  unfold App.processMarkets, App.validStructure.
  destruct (App.sorted Date_parse markets) as [|m ms]; [done|].
  destruct (List.filter App.valid (App.point Date_parse now <$> m :: ms)) as [|p [|q l]] eqn:Hv;
    [done| |].
  - simpl. by destruct (JS.truthy_num (App.underlyingYield p)).
  - cbn [length Nat.eqb Nat.leb lookup list_lookup].
    destruct ((p :: q :: l) !! _);
      by destruct (JS.truthy_num (App.underlyingYield p)).
Qed.

Lemma processMarkets_error (now : Z) (markets : list Market) (st : App.State) :
  App.error (App.processMarkets Date_parse now markets st)
  = match App.sorted Date_parse markets, App.validStructure Date_parse now markets with
    | _ :: _, [] => Some "No valid markets with positive days to expiry"
    | _, _ => App.error st
    end.
Proof.
  unfold App.processMarkets, App.validStructure.
  destruct (App.sorted Date_parse markets) as [|m ms]; [done|].
  destruct (List.filter App.valid (App.point Date_parse now <$> m :: ms)) as [|p [|q l]] eqn:Hv;
    [done| |].
  - simpl. by destruct (JS.truthy_num (App.underlyingYield p)).
  - cbn [length Nat.eqb Nat.leb lookup list_lookup].
    destruct ((p :: q :: l) !! _);
      by destruct (JS.truthy_num (App.underlyingYield p)).
Qed.

Lemma validStructure_nil (now : Z) (markets : list Market) :
  App.sorted Date_parse markets = [] → App.validStructure Date_parse now markets = [].
Proof. unfold App.validStructure. by intros ->. Qed.

(** Every point that passes the filter is in order. *)
Lemma validStructure_ok (now : Z) (markets : list Market) (p : App.Point) :
  p ∈ App.validStructure Date_parse now markets → shown_ok p.
Proof.
  unfold App.validStructure. rewrite filter_elem_of, list_elem_of_fmap.
  intros [(m & -> & _) Hvalid]. unfold App.valid in Hvalid. unfold shown_ok.
  simpl in *.
  destruct (expiry m ≫= Date_parse) as [t|]; simpl in *; [|done].
  apply andb_true_iff in Hvalid as [Hd Hy]. apply Z.ltb_lt in Hd.
  split; [eauto|]. split; [done|]. split; [done|].
  destruct (Z.leb_spec (JS.ceil_div (t - now) JS.msPerDay) 0); [lia|].
  by destruct (JS.ceil_div (t - now) JS.msPerDay <=? 30).
Qed.

(** The structure after a refresh is the one before it, or the
    non-empty list of valid points of some list of markets. *)
Lemma fetch_structure (api : App.Fetched) (now : Z) (st : App.State) :
  App.termStructure (App.fetchPendleMarkets Date_parse api now st) = App.termStructure st
  ∨ ∃ markets,
      App.validStructure Date_parse now markets ≠ [] ∧
      App.termStructure (App.fetchPendleMarkets Date_parse api now st)
      = App.validStructure Date_parse now markets.
Proof.
  assert (Hp : ∀ markets s,
             App.termStructure s = App.termStructure st →
             App.termStructure (App.processMarkets Date_parse now markets s)
             = App.termStructure st
             ∨ ∃ ms, App.validStructure Date_parse now ms ≠ [] ∧
                     App.termStructure (App.processMarkets Date_parse now markets s)
                     = App.validStructure Date_parse now ms).
  { intros markets s Hs. rewrite processMarkets_structure.
    destruct (App.validStructure Date_parse now markets) as [|p l] eqn:Hv; [by left|].
    right. exists markets. by rewrite Hv. }
  unfold App.fetchPendleMarkets. destruct api as [message|code|markets results]; [by left..|].
  destruct (length (default [] (App.list_or markets results)) =? 0)%nat; [by left|].
  destruct (length (List.filter App.is_susde _) =? 0)%nat; [|by apply Hp].
  destruct (0 <? length (List.filter App.is_ethena _))%nat; [by apply Hp|by left].
Qed.

End DashboardFacts.

(** X8: the displayed structure stays in order across refreshes.  If
    every point shown has days left, a positive implied yield and the
    label of its days (a count of days or months, never "Expired"),
    then so has every point shown after a refresh, whatever the feed
    answers; and the empty structure of the start is in order. *)
Theorem display_stays_in_order
        (Date_parse : string -> option Z) (api : App.Fetched) (now : Z) (st : App.State) :
  (∀ p, p ∈ App.termStructure st → shown_ok p) →
  ∀ p, p ∈ App.termStructure (App.fetchPendleMarkets Date_parse api now st) → shown_ok p.
Proof.
  intros Hst p.
  destruct (fetch_structure Date_parse api now st) as [-> | (markets & _ & ->)]; [auto|].
  apply validStructure_ok.
Qed.

(** X8, an instance: the first refresh, from the initial state, on the
    two-maturity feed. *)
Lemma display_stays_in_order_sample :
  Forall shown_ok
         (App.termStructure
            (App.fetchPendleMarkets IsoDate.parse
               (App.Data (Some (delivered (two_maturities 1))) None) asOf App.initial)).
Proof.
  apply Forall_forall.
  apply display_stays_in_order. intros p Hp. by apply elem_of_nil in Hp.
Defined.

(** X9: a refresh that gets no list of markets (the request fails, or
    the list the code picks is missing or empty, also when [markets] is
    an empty array and [results] is not) sets an error and leaves the
    structure, the spread and the underlying yield as they were; and no
    refresh ever replaces a structure by an empty one. *)
Theorem failed_refresh_keeps_display
        (Date_parse : string -> option Z) (api : App.Fetched) (now : Z) (st : App.State) :
  let st' := App.fetchPendleMarkets Date_parse api now st in
  (no_markets api →
   App.termStructure st' = App.termStructure st ∧
   App.termSpread st' = App.termSpread st ∧
   App.underlyingYieldText st' = App.underlyingYieldText st ∧
   is_Some (App.error st')) ∧
  (App.termStructure st' = [] → App.termStructure st = []).
Proof.
  intros st'. split.
  - subst st'. unfold no_markets, App.fetchPendleMarkets.
    destruct api as [message|code|markets results]; simpl; [eauto..|].
    intros ->. simpl. eauto.
  - subst st'.
    destruct (fetch_structure Date_parse api now st) as [-> | (markets & Hne & ->)]; done.
Qed.

(** X9, an instance: [markets] is an empty array, [results] holds the
    two maturities; the refresh reports that no data was received. *)
Lemma failed_refresh_sample :
  App.error (App.fetchPendleMarkets IsoDate.parse
               (App.Data (Some []) (Some (delivered (two_maturities 1)))) asOf shown_before)
  = Some "No markets data received from API" ∧
  App.termStructure (App.fetchPendleMarkets IsoDate.parse
               (App.Data (Some []) (Some (delivered (two_maturities 1)))) asOf shown_before)
  = App.termStructure shown_before.
Proof.
  destruct (failed_refresh_keeps_display IsoDate.parse
              (App.Data (Some []) (Some (delivered (two_maturities 1)))) asOf shown_before)
    as [Hfail _].
  destruct Hfail as (Hs & _); [reflexivity|].
  split; [reflexivity|exact Hs].
Defined.

Section RefreshFacts.
Context (Date_parse : string -> option Z).

Lemma length_zero {A : Type} (l : list A) : (length l =? 0)%nat = true ↔ l = [].
Proof. destruct l; simpl; split; done. Qed.

Lemma length_nonzero {A : Type} (l : list A) : (length l =? 0)%nat = false ↔ l ≠ [].
Proof. destruct l; simpl; split; done. Qed.

(** After [processMarkets] on a state that holds an error, an error is
    still held. *)
Lemma processMarkets_keeps_error (now : Z) (markets : list Market) (st : App.State) :
  is_Some (App.error st) →
  is_Some (App.error (App.processMarkets Date_parse now markets st)).
Proof.
  intros Hst. rewrite processMarkets_error.
  destruct (App.sorted Date_parse markets); [done|].
  by destruct (App.validStructure Date_parse now _).
Qed.

End RefreshFacts.

(** X10: when a refresh ends without an error.  Exactly when the feed
    delivers a list with at least one market that matches the sUSDe
    filter, and of the matching markets either none has an expiry or
    at least one gives a valid point.  In the first of the two cases
    nothing but the error changes: the display keeps the earlier
    structure, spread and underlying yield, and no message is shown. *)
Theorem refresh_without_error
        (Date_parse : string -> option Z) (api : App.Fetched) (now : Z) (st : App.State) :
  (App.error (App.fetchPendleMarkets Date_parse api now st) = None ↔
   ∃ markets results,
     api = App.Data markets results ∧
     let susde := List.filter App.is_susde (default [] (App.list_or markets results)) in
     susde ≠ [] ∧
     (App.sorted Date_parse susde = [] ∨ App.validStructure Date_parse now susde ≠ [])) ∧
  (∀ markets results,
     api = App.Data markets results →
     let susde := List.filter App.is_susde (default [] (App.list_or markets results)) in
     susde ≠ [] → App.sorted Date_parse susde = [] →
     App.fetchPendleMarkets Date_parse api now st = App.setError None st).
Proof.
  split.
  - destruct api as [message|code|markets results].
    + split; [done|]. by intros (? & ? & ? & _).
    + split; [done|]. by intros (? & ? & ? & _).
    + unfold App.fetchPendleMarkets.
      set (all := default [] (App.list_or markets results)).
      set (susde := List.filter App.is_susde all).
      assert (Hiff : (∃ markets0 results0,
                 App.Data markets results = App.Data markets0 results0 ∧
                 let susde := List.filter App.is_susde
                                (default [] (App.list_or markets0 results0)) in
                 susde ≠ [] ∧
                 (App.sorted Date_parse susde = []
                  ∨ App.validStructure Date_parse now susde ≠ []))
              ↔ susde ≠ [] ∧ (App.sorted Date_parse susde = []
                              ∨ App.validStructure Date_parse now susde ≠ [])).
      { split.
        - intros (m0 & r0 & Heq & H). by injection Heq as <- <-.
        - intros H. by exists markets, results. }
      rewrite Hiff. clear Hiff.
      destruct (length all =? 0)%nat eqn:Hall.
      { apply length_zero in Hall. split; [done|].
        intros [Hs _]. subst susde. by rewrite Hall in Hs. }
      destruct (length susde =? 0)%nat eqn:Hsusde.
      { apply length_zero in Hsusde. split; [|by intros [? _]].
        intros Herr. exfalso.
        destruct (0 <? length (List.filter App.is_ethena all))%nat.
        - eapply is_Some_None. rewrite <- Herr.
          apply processMarkets_keeps_error. simpl. eauto.
        - done. }
      apply length_nonzero in Hsusde.
      rewrite processMarkets_error. simpl.
      destruct (App.sorted Date_parse susde) as [|m ms] eqn:Hsorted.
      { split; [|done]. intros _. split; [done|]. by left. }
      destruct (App.validStructure Date_parse now susde) as [|p l] eqn:Hvalid.
      { split; [done|]. intros [_ [?|?]]; done. }
      split; [|done]. intros _. split; [done|]. by right.
  - intros markets results -> susde Hne Hsorted.
    unfold App.fetchPendleMarkets.
    fold susde.
    destruct (length (default [] (App.list_or markets results)) =? 0)%nat eqn:Hall.
    { apply length_zero in Hall. subst susde. by rewrite Hall in Hne. }
    apply length_nonzero in Hne. rewrite Hne.
    unfold App.processMarkets. by rewrite Hsorted.
Qed.

Section StructureFacts.
Context (Date_parse : string -> option Z).

Lemma ceil_div_mono (a b c : Z) : 0 < c → a <= b → JS.ceil_div a c <= JS.ceil_div b c.
Proof.
  intros Hc Hab. unfold JS.ceil_div.
  assert (- b / c <= - a / c) by (apply Z.div_le_mono; lia). lia.
Qed.

(** A list sorted by one order is sorted by every order that holds
    between its members whenever the first does. *)
Lemma StronglySorted_impl_on {A : Type} (R R' : relation A) (l : list A) :
  (∀ x y, x ∈ l → y ∈ l → R x y → R' x y) →
  StronglySorted R l → StronglySorted R' l.
Proof.
  intros Himpl Hs. induction Hs as [|x l Hs IH Hx]; [constructor|].
  constructor.
  - apply IH. intros a b Ha Hb. apply Himpl; by apply list_elem_of_further.
  - rewrite Forall_forall in Hx |- *. intros y Hy.
    apply Himpl; [apply list_elem_of_here|by apply list_elem_of_further|by apply Hx].
Qed.

(** The valid points come in ascending days, when the expiry strings
    of the feed are dates. *)
Lemma validStructure_sorted (now : Z) (markets : list Market) :
  (∀ m, m ∈ markets → JS.truthy_str (expiry m) = true →
        is_Some (expiry m ≫= Date_parse)) →
  StronglySorted (key_le (fun p => default 0 (App.days p)))
                 (App.validStructure Date_parse now markets).
Proof.
  intros Hparse. unfold App.validStructure.
  apply filter_StronglySorted.
  apply (StronglySorted_fmap _
           (fun a b => key_le (fun p => default 0 (App.days p))
                              (App.point Date_parse now a) (App.point Date_parse now b)));
    [done|].
  unfold App.sorted.
  apply (StronglySorted_impl_on
           (key_le (fun m => default 0 (expiry m ≫= Date_parse)))).
  - intros x y Hx Hy. rewrite sort_elem_of, filter_elem_of in Hx, Hy.
    destruct Hx as [Hx Hex], Hy as [Hy Hey].
    destruct (Hparse x Hx Hex) as [tx Htx], (Hparse y Hy Hey) as [ty Hty].
    unfold key_le. simpl. rewrite Htx, Hty. simpl. intros Hle.
    apply ceil_div_mono; [done|lia].
  - apply sort_sorted. intros x y [Hx Hex]%filter_elem_of [Hy Hey]%filter_elem_of.
    destruct (Hparse x Hx Hex) as [tx Htx], (Hparse y Hy Hey) as [ty Hty].
    unfold App.by_expiry. by rewrite Htx, Hty.
Qed.

Lemma validStructure_days (now : Z) (markets : list Market) (p : App.Point) :
  p ∈ App.validStructure Date_parse now markets → ∃ d, App.days p = Some d ∧ 0 < d.
Proof. intros Hp. by destruct (validStructure_ok Date_parse now markets p Hp) as [? _]. Qed.

Lemma processMarkets_spread (now : Z) (markets : list Market) (st : App.State)
      (front back : App.Point) :
  let vs := App.validStructure Date_parse now markets in
  (2 <= length vs)%nat →
  vs !! 0%nat = Some front → vs !! (length vs - 1)%nat = Some back →
  App.termSpread (App.processMarkets Date_parse now markets st)
  = JS.parseFloat (JS.toFixed (App.impliedYield back - App.impliedYield front) 2).
Proof.
  unfold App.processMarkets, App.validStructure.
  destruct (App.sorted Date_parse markets) as [|m ms]; [simpl; lia|].
  destruct (List.filter App.valid (App.point Date_parse now <$> m :: ms)) as [|p [|q l]];
    [simpl; lia..|].
  intros _ Hfront Hback. injection Hfront as ->. rewrite Hback.
  cbn [length Nat.eqb Nat.leb lookup list_lookup].
  by destruct (JS.truthy_num (App.underlyingYield front)).
Qed.

End StructureFacts.

(** X11: with two or more valid points the dashboard shows all of them
    and the spread between the last and the first: the implied yield
    of the last minus that of the first, rounded to two decimals; the
    error is left as it was.  When the expiry strings of the feed are
    dates, the first point has the fewest days left and the last one
    the most. *)
Theorem dashboard_spread_of_extremes
        (Date_parse : string -> option Z) (now : Z) (markets : list Market)
        (st : App.State) :
  let vs := App.validStructure Date_parse now markets in
  let st' := App.processMarkets Date_parse now markets st in
  (2 <= length vs)%nat →
  ∃ front back df db,
    vs !! 0%nat = Some front ∧ vs !! (length vs - 1)%nat = Some back ∧
    App.days front = Some df ∧ App.days back = Some db ∧
    App.termStructure st' = vs ∧
    App.termSpread st'
    = JS.parseFloat (JS.toFixed (App.impliedYield back - App.impliedYield front) 2) ∧
    App.error st' = App.error st ∧
    ((∀ m, m ∈ markets → JS.truthy_str (expiry m) = true →
           is_Some (expiry m ≫= Date_parse)) →
     ∀ p, p ∈ vs → ∃ d, App.days p = Some d ∧ df <= d <= db).
Proof.
  intros vs st' Hlen.
  destruct (lookup_lt_is_Some_2 vs 0%nat) as [front Hfront]; [lia|].
  destruct (lookup_lt_is_Some_2 vs (length vs - 1)%nat) as [back Hback]; [lia|].
  assert (Hf : front ∈ vs) by (by eapply list_elem_of_lookup_2).
  assert (Hb : back ∈ vs) by (by eapply list_elem_of_lookup_2).
  destruct (validStructure_days Date_parse now markets front Hf) as (df & Hdf & _).
  destruct (validStructure_days Date_parse now markets back Hb) as (db & Hdb & _).
  exists front, back, df, db. repeat (split; [done|]).
  split; [|split; [|split]].
  - subst st'. rewrite processMarkets_structure. fold vs.
    destruct vs; [simpl in Hlen; lia|done].
  - by apply processMarkets_spread.
  - subst st'. rewrite processMarkets_error. fold vs.
    destruct vs; [simpl in Hlen; lia|]. by destruct (App.sorted Date_parse markets).
  - intros Hparse p Hp.
    destruct (validStructure_days Date_parse now markets p Hp) as (d & Hd & _).
    exists d. split; [done|].
    assert (Hrefl : Reflexive (key_le (fun p => default 0 (App.days p)))).
    { intros x. unfold key_le. lia. }
    destruct (sorted_extremes (key_le (fun p => default 0 (App.days p))) vs front back
                (validStructure_sorted Date_parse now markets Hparse) Hfront Hback p Hp)
      as [Hlo Hhi].
    unfold key_le in Hlo, Hhi. rewrite Hd, Hdf in Hlo. rewrite Hd, Hdb in Hhi.
    simpl in Hlo, Hhi. lia.
Qed.

(** X11, an instance: three maturities, 56, 147 and 266 days ahead,
    at 5%, 4.5% and 4%; the spread shown is -1. *)
Lemma dashboard_spread_sample :
  App.termSpread (App.processMarkets IsoDate.parse asOf (delivered (one_failing 2))
                    App.initial) = (-1)%float.
Proof.
  destruct (dashboard_spread_of_extremes IsoDate.parse asOf (delivered (one_failing 2))
              App.initial)
    as (front & back & df & db & Hfront & Hback & _ & _ & _ & Hspread & _).
  { vm_compute. lia. }
  rewrite Hspread.
  vm_compute in Hfront, Hback.
  injection Hfront as <-. injection Hback as <-.
  vm_compute. reflexivity.
Defined.

(** * The dashboard and the daily job on the same feed *)
Section Transport.
Context {A B : Type} (f : A -> B).

Lemma filter_fmap (p : B -> bool) (l : list A) :
  List.filter p (f <$> l) = f <$> List.filter (fun x => p (f x)) l.
Proof.
  induction l as [|x r IH]; [done|].
  rewrite fmap_cons. cbn [List.filter].
  destruct (p (f x)); by rewrite ?fmap_cons, IH.
Qed.

Context (cmpA : A -> A -> option Z) (cmpB : B -> B -> option Z).

Lemma run_rest_fmap (d : bool) (p : A) (l : list A) :
  (∀ a b, cmpB (f a) (f b) = cmpA a b) →
  JS.run_rest cmpB d (f p) (f <$> l)
  = prod_map (fmap f) (fmap f) (JS.run_rest cmpA d p l).
Proof.
  intros Hcmp. revert p. induction l as [|c r IH]; intros p; [done|].
  rewrite fmap_cons. cbn [JS.run_rest]. unfold JS.SortCompare. rewrite Hcmp.
  destruct (if d then _ else _); [done|].
  rewrite IH. by destruct (JS.run_rest cmpA d c r).
Qed.

Lemma CountAndMakeRun_fmap (l : list A) :
  (∀ a b, cmpB (f a) (f b) = cmpA a b) →
  JS.CountAndMakeRun cmpB (f <$> l)
  = prod_map (fmap f) (fmap f) (JS.CountAndMakeRun cmpA l).
Proof.
  intros Hcmp. destruct l as [|h [|lo r]]; [done..|].
  rewrite !fmap_cons. cbn [JS.CountAndMakeRun]. unfold JS.SortCompare.
  rewrite Hcmp, run_rest_fmap by done.
  destruct (JS.run_rest cmpA _ lo r) as [run rest]. cbn [prod_map fst snd].
  destruct (default 0 (cmpA lo h) <? 0); cbn [prod_map fst snd]; [|done].
  by rewrite fmap_reverse.
Qed.

Lemma insertion_point_fmap (fuel : nat) (pivot : A) (run : list A) (left right : nat) :
  (∀ a b, cmpB (f a) (f b) = cmpA a b) →
  JS.insertion_point cmpB fuel (f pivot) (f <$> run) left right
  = JS.insertion_point cmpA fuel pivot run left right.
Proof.
  intros Hcmp. revert left right. induction fuel as [|fuel IH]; intros left right; [done|].
  cbn [JS.insertion_point]. destruct (left <? right)%nat; [|done].
  rewrite list_lookup_fmap.
  destruct (run !! _) as [y|]; [|done]. cbn [fmap option_fmap option_map].
  unfold JS.SortCompare. rewrite Hcmp, !IH. done.
Qed.

Lemma BinaryInsert_fmap (run : list A) (pivot : A) :
  (∀ a b, cmpB (f a) (f b) = cmpA a b) →
  JS.BinaryInsert cmpB (f <$> run) (f pivot) = f <$> JS.BinaryInsert cmpA run pivot.
Proof.
  intros Hcmp. unfold JS.BinaryInsert.
  by rewrite length_fmap, insertion_point_fmap, fmap_app, fmap_cons, fmap_take, fmap_drop.
Qed.

Lemma sort_fmap (l : list A) :
  (∀ a b, cmpB (f a) (f b) = cmpA a b) →
  JS.sort cmpB (f <$> l) = f <$> JS.sort cmpA l.
Proof.
  intros Hcmp. unfold JS.sort. rewrite CountAndMakeRun_fmap by done.
  destruct (JS.CountAndMakeRun cmpA l) as [run rest]. cbn [prod_map fst snd].
  revert run. induction rest as [|x rest IH]; intros run; [done|].
  rewrite fmap_cons. cbn [fold_left]. by rewrite BinaryInsert_fmap, IH.
Qed.
End Transport.

Section SameFeed.
Context (Date_parse : string -> option Z).

(** The job's candidates among markets of one chain are the
    dashboard's sorted markets with days left, tagged with the chain. *)
Lemma candidates_of_chain (now : Z) (c : string) (cid : Z) (markets : list Market) :
  Snapshot.sorted Date_parse now (on_chain c cid <$> markets)
  = on_chain c cid
      <$> List.filter (fun m => Snapshot.days_positive Date_parse now (on_chain c cid m))
                      (App.sorted Date_parse markets).
Proof.
  unfold Snapshot.sorted, App.sorted.
  rewrite filter_fmap.
  rewrite (sort_fmap (on_chain c cid) (App.by_expiry Date_parse)); [|done].
  by rewrite filter_fmap.
Qed.

Lemma valid_point (now : Z) (c : string) (cid : Z) (m : Market) :
  App.valid (App.point Date_parse now m)
  = Snapshot.days_positive Date_parse now (on_chain c cid m)
    && PrimFloat.ltb 0 (App.impliedYield (App.point Date_parse now m)).
Proof.
  unfold App.valid, Snapshot.days_positive, Snapshot.days.
  cbn [App.days App.point Snapshot.market on_chain].
  by destruct (expiry m ≫= Date_parse) as [t|].
Qed.

Lemma valid_split (now : Z) (c : string) (cid : Z) (l : list Market) :
  List.filter App.valid (App.point Date_parse now <$> l)
  = List.filter (fun p => PrimFloat.ltb 0 (App.impliedYield p))
      (App.point Date_parse now
         <$> List.filter (fun m => Snapshot.days_positive Date_parse now (on_chain c cid m))
                         l).
Proof.
  induction l as [|m r IH]; [done|].
  rewrite fmap_cons. cbn [List.filter]. rewrite IH, (valid_point now c cid).
  destruct (Snapshot.days_positive Date_parse now (on_chain c cid m)); [|done].
  rewrite fmap_cons. cbn [andb List.filter]. done.
Qed.

End SameFeed.

(** X12: on the markets of one chain, the points the dashboard keeps
    are the job's candidates, in the job's order, without those whose
    implied yield is not above zero; a point's days and implied yield
    are those the job computes for the market. *)
Theorem dashboard_points_are_job_candidates
        (Date_parse : string -> option Z) (now : Z) (c : string) (cid : Z)
        (markets : list Market) :
  App.validStructure Date_parse now markets
  = List.filter (fun p => PrimFloat.ltb 0 (App.impliedYield p))
      (App.point Date_parse now
         <$> (Snapshot.market
                <$> Snapshot.sorted Date_parse now (on_chain c cid <$> markets))) ∧
  ∀ m, App.days (App.point Date_parse now m) = Snapshot.days Date_parse now (on_chain c cid m) ∧
       App.impliedYield (App.point Date_parse now m)
       = Snapshot.impliedYield (on_chain c cid m).
Proof.
  split; [|done].
  rewrite candidates_of_chain, <- !list_fmap_compose.
  unfold App.validStructure.
  by rewrite (valid_split Date_parse now c cid).
Qed.


(** * Labels of the dashboard *)

(** X13: the maturity label by bands of days left.  Zero or fewer days
    read "Expired"; one to thirty days read as that count of days;
    beyond thirty days the label counts months of thirty days, rounded
    to the nearest with halves going up, and is at least one month; an
    invalid date gives the month label without a number.  So 44 days
    read as one month and 45 days as two. *)
Theorem maturity_bands (d : Z) :
  (d <= 0 → App.formatMaturity (Some d) = App.Expired) ∧
  (1 <= d <= 30 → App.formatMaturity (Some d) = App.D d) ∧
  (30 < d →
   ∃ m, App.formatMaturity (Some d) = App.M (Some m) ∧
        1 <= m ∧ 30 * m - 15 <= d < 30 * m + 15) ∧
  App.formatMaturity None = App.M None ∧
  App.formatMaturity (Some 44) = App.M (Some 1) ∧
  App.formatMaturity (Some 45) = App.M (Some 2).
Proof.
  unfold App.formatMaturity. repeat split; try reflexivity.
  - intros Hd. by destruct (Z.leb_spec d 0); [|lia].
  - intros Hd. destruct (Z.leb_spec d 0); [lia|]. by destruct (Z.leb_spec d 30); [|lia].
  - intros Hd. destruct (Z.leb_spec d 0); [lia|]. destruct (Z.leb_spec d 30); [lia|].
    exists (JS.round_div d 30). split; [done|]. unfold JS.round_div.
    pose proof (Z.div_mod (2 * d + 30) 60 ltac:(lia)) as Hdiv.
    pose proof (Z.mod_pos_bound (2 * d + 30) 60 ltac:(lia)) as Hmod.
    change (2 * 30) with 60. lia.
Qed.

Section FloatOrder.

(** Negative numbers of one exponent: a mantissa above [a] is above
    every [b] below [a]. *)
Lemma mantissa_chain (m a b : positive) :
  (b < a)%positive →
  match CompOpp (PosDef.Pos.compare_cont Eq m a) with Lt => true | _ => false end = true →
  match CompOpp (PosDef.Pos.compare_cont Eq m b) with Lt => true | _ => false end = true.
Proof.
  intros Hba.
  change (PosDef.Pos.compare_cont Eq m a) with (m ?= a)%positive.
  change (PosDef.Pos.compare_cont Eq m b) with (m ?= b)%positive.
  destruct (Pos.compare_spec m a); simpl; [discriminate|discriminate|].
  intros _. destruct (Pos.compare_spec m b); simpl; [lia|lia|reflexivity].
Qed.

Lemma below_steep (x : float) :
  PrimFloat.ltb x (-7.5) = true → PrimFloat.ltb x (-5) = true.
Proof.
  rewrite !FloatAxioms.ltb_spec. unfold SFltb.
  change (Prim2SF (-7.5)) with (S754_finite true 8444249301319680 (-50)).
  change (Prim2SF (-5)) with (S754_finite true 5629499534213120 (-50)).
  destruct (Prim2SF x) as [s| s | |s m e]; cbn [SFcompare].
  - destruct s; discriminate.
  - destruct s; [reflexivity|discriminate].
  - discriminate.
  - destruct s; [|discriminate].
    destruct (Z.compare_spec e (-50)) as [He|He|He]; cbn [CompOpp];
      [|discriminate|reflexivity].
    apply mantissa_chain. vm_compute. reflexivity.
Qed.

(** [NaN] is below nothing and above nothing. *)
Lemma nan_unordered (x y : float) :
  PrimFloat.is_nan x = true →
  PrimFloat.ltb x y = false ∧ PrimFloat.ltb y x = false.
Proof.
  unfold PrimFloat.is_nan. rewrite !FloatAxioms.ltb_spec, FloatAxioms.eqb_spec.
  unfold SFltb, SFeqb.
  destruct (Prim2SF x) as [s| s | |s m e]; cbn [SFcompare negb].
  - intros H. destruct s; vm_compute in H; discriminate.
  - intros H. destruct s; vm_compute in H; discriminate.
  - intros _. split; [reflexivity|]. by destruct (Prim2SF y) as [[]|[]| |[] ? ?].
  - rewrite Z.compare_refl.
    change (PosDef.Pos.compare_cont Eq m m) with (m ?= m)%positive.
    rewrite Pos.compare_refl. destruct s; discriminate.
Qed.
End FloatOrder.

(** X14: the regime label and the signal agree on every spread,
    [NaN] and the infinities included: CONTANGO goes with BULLISH,
    BACKWARDATION with NEUTRAL, and STEEP BACKWARDATION with BEARISH or
    CAUTIOUS; the regime's colour is the signal's colour except under
    CAUTIOUS; a spread that is [NaN], and a spread of zero, read
    BACKWARDATION and NEUTRAL; so does the display after a refresh that
    finds exactly one valid point. *)
Theorem regime_and_signal (termSpread : float) :
  (App.getRegimeLabel termSpread = "CONTANGO"
   ↔ App.text (App.getSignal termSpread) = "BULLISH") ∧
  (App.getRegimeLabel termSpread = "BACKWARDATION"
   ↔ App.text (App.getSignal termSpread) = "NEUTRAL") ∧
  (App.getRegimeLabel termSpread = "STEEP BACKWARDATION"
   ↔ App.text (App.getSignal termSpread) = "BEARISH"
     ∨ App.text (App.getSignal termSpread) = "CAUTIOUS") ∧
  (App.text (App.getSignal termSpread) ≠ "CAUTIOUS" →
   App.getRegimeColor termSpread = App.color (App.getSignal termSpread)) ∧
  (PrimFloat.is_nan termSpread = true ∨ termSpread = 0%float →
   App.getRegimeLabel termSpread = "BACKWARDATION" ∧
   App.text (App.getSignal termSpread) = "NEUTRAL") ∧
  (∀ Date_parse now markets st p,
     App.validStructure Date_parse now markets = [p] →
     termSpread = App.termSpread (App.processMarkets Date_parse now markets st) →
     App.getRegimeLabel termSpread = "BACKWARDATION" ∧
     App.text (App.getSignal termSpread) = "NEUTRAL").
Proof.
  assert (Hzero : App.getRegimeLabel 0 = "BACKWARDATION" ∧
                  App.text (App.getSignal 0) = "NEUTRAL") by (by vm_compute).
  pose proof (below_steep termSpread) as Hbelow.
  split; [|split; [|split; [|split; [|split]]]].
  - unfold App.getRegimeLabel, App.getSignal.
    destruct (PrimFloat.ltb 0 termSpread); [done|].
    destruct (PrimFloat.ltb termSpread (-7.5)); [rewrite Hbelow by done; done|].
    by destruct (PrimFloat.ltb termSpread (-5)).
  - unfold App.getRegimeLabel, App.getSignal.
    destruct (PrimFloat.ltb 0 termSpread); [done|].
    destruct (PrimFloat.ltb termSpread (-7.5)); [rewrite Hbelow by done; done|].
    by destruct (PrimFloat.ltb termSpread (-5)).
  - unfold App.getRegimeLabel, App.getSignal.
    destruct (PrimFloat.ltb 0 termSpread); [naive_solver|].
    destruct (PrimFloat.ltb termSpread (-7.5)); [rewrite Hbelow by done; naive_solver|].
    destruct (PrimFloat.ltb termSpread (-5)); naive_solver.
  - unfold App.getRegimeColor, App.getSignal.
    destruct (PrimFloat.ltb 0 termSpread); [done|].
    destruct (PrimFloat.ltb termSpread (-7.5)); [rewrite Hbelow by done; done|].
    by destruct (PrimFloat.ltb termSpread (-5)).
  - intros [Hnan | ->]; [|done].
    unfold App.getRegimeLabel, App.getSignal.
    destruct (nan_unordered termSpread 0 Hnan) as [_ ->].
    destruct (nan_unordered termSpread (-7.5) Hnan) as [-> _].
    by destruct (nan_unordered termSpread (-5) Hnan) as [-> _].
  - intros Date_parse now markets st p Hone ->.
    rewrite (processMarkets_single Date_parse now markets st p Hone).
    by destruct (JS.truthy_num (App.underlyingYield p)).
Qed.

(** X15: the job's filter is the narrowest of the three: a market the
    daily job takes for an sUSDe market passes the dashboard's filter
    and the dashboard's broader second filter as well. *)
Theorem job_filter_within_dashboard_filters (t : Snapshot.Tagged) :
  Snapshot.is_susde t = true →
  App.is_susde (Snapshot.market t) = true ∧ App.is_ethena (Snapshot.market t) = true.
Proof.
  unfold Snapshot.is_susde, App.is_susde, App.is_ethena.
  destruct (name (Snapshot.market t)) as [n|] eqn:Hname; [|done].
  unfold JS.or_str, JS.or_lit, JS.truthy_str.
  destruct (String.eqb n "") eqn:Hn; [done|].
  cbn [negb]. rewrite Hn. intros ->%String.eqb_eq. done.
Qed.

(** X15, an instance: a market named [sUSDe]. *)
Lemma job_filter_within_sample :
  App.is_susde zero_nested = true ∧ App.is_ethena zero_nested = true.
Proof.
  apply (job_filter_within_dashboard_filters (on_chain "Ethereum" 1 zero_nested)).
  reflexivity.
Defined.

(** * Runs of the job on one day *)
Section SameDay.

Lemma split_head_congr (c : ascii) (a x y : string) :
  JS.split_head c x = JS.split_head c y →
  JS.split_head c (a ++ x) = JS.split_head c (a ++ y).
Proof.
  intros Hxy. induction a as [|d a IH]; [done|].
  change (JS.split_head c (String d (a ++ x)) = JS.split_head c (String d (a ++ y))).
  cbn [JS.split_head]. by rewrite IH.
Qed.

(** The key of the row depends on the day of the run only. *)
Lemma today_of_day (now1 now2 : Z) :
  now1 / JS.msPerDay = now2 / JS.msPerDay → Snapshot.today now1 = Snapshot.today now2.
Proof.
  intros Hday. unfold Snapshot.today, JS.toISOString. rewrite Hday.
  destruct (JS.civil_from_days (now2 / JS.msPerDay)) as [[y m] d].
  do 5 apply split_head_congr. reflexivity.
Qed.

End SameDay.

(** X16: a second run on the same UTC day takes the place of the first.
    Two runs whose clocks read the same day write under the same key;
    when the second one stores a record, the table is what the second
    run alone would have left, whatever the first run stored; when it
    stores nothing, the table is as the first run left it. *)
Theorem rerun_same_day
        (Date_parse : string -> option Z) (net1 net2 : Z -> Snapshot.Fetched)
        (now1 now2 : Z) (link1 link2 : Supabase.Link)
        (tbl : gmap string Supabase.Columns) :
  let first := Snapshot.handler Date_parse net1 now1 link1 tbl in
  let second := Snapshot.handler Date_parse net2 now2 link2 first.2 in
  now1 / JS.msPerDay = now2 / JS.msPerDay →
  Snapshot.today now1 = Snapshot.today now2 ∧
  (field "success" (body second.1) = Some (JBool true) →
   second.2 = (Snapshot.handler Date_parse net2 now2 link2 tbl).2) ∧
  (field "success" (body second.1) ≠ Some (JBool true) → second.2 = first.2) ∧
  second.1 = (Snapshot.handler Date_parse net2 now2 link2 tbl).1.
Proof.
  intros first second Hday.
  pose proof (today_of_day now1 now2 Hday) as Htoday.
  split; [done|].
  assert (Hfirst : first.2 = tbl ∨ ∃ c, first.2 = <[Snapshot.today now1 := c]> tbl).
  { subst first.
    destruct (handler_cases Date_parse net1 now1 link1 tbl)
      as [(_ & message & key & count & Hout & _)
         |(_ & front & back & _ & _ & Hout)]; rewrite Hout; [by left|].
    destruct link1; [|by left|by left]. right. by eexists. }
  subst second.
  destruct (handler_cases Date_parse net2 now2 link2 first.2)
    as [(Hlt & message & key & count & Hout & Hkey)
       |(Hge & front & back & Hfront & Hback & Hout)];
    destruct (handler_cases Date_parse net2 now2 link2 tbl)
      as [(Hlt' & message' & key' & count' & Hout' & Hkey')
         |(Hge' & front' & back' & Hfront' & Hback' & Hout')]; try lia.
  - rewrite Hout, Hout'.
    unfold Snapshot.handler in Hout, Hout'.
    split; [by destruct Hkey as [-> | ->]|]. split; [done|].
    simpl.
    destruct (length (Snapshot.susdeMarkets net2) <? 2)%nat;
      [by simplify_eq|].
    destruct (length (Snapshot.sorted Date_parse now2 (Snapshot.susdeMarkets net2)) <? 2)%nat
      eqn:Hlen; [by simplify_eq|].
    apply Nat.ltb_ge in Hlen. lia.
  - rewrite Hfront in Hfront'. rewrite Hback in Hback'. simplify_eq.
    rewrite Hout, Hout'.
    destruct link2; simpl; [|done|done].
    split; [|done]. intros _.
    destruct Hfirst as [-> | [c ->]]; [done|].
    rewrite Htoday. apply insert_insert_eq.
Qed.

(** X16, an instance: a run at midnight and a run at noon of
    2026-01-01 on different feeds; the table holds the noon figures. *)
Lemma rerun_same_day_sample :
  (Snapshot.handler IsoDate.parse one_failing (asOf + 43200000) Supabase.Up
     (Snapshot.handler IsoDate.parse two_maturities asOf Supabase.Up ∅).2).2
  = (Snapshot.handler IsoDate.parse one_failing (asOf + 43200000) Supabase.Up ∅).2.
Proof.
  destruct (rerun_same_day IsoDate.parse two_maturities one_failing asOf (asOf + 43200000)
              Supabase.Up Supabase.Up ∅) as (_ & Hsecond & _).
  - vm_compute. reflexivity.
  - apply Hsecond. vm_compute. reflexivity.
Defined.

(** * Markets with the same expiry *)
Section Stable.
Local Open Scope list_scope.
Context {A : Type} (comparefn : A -> A -> option Z) (key : A -> Z) (k : Z).

Lemma filter_comm (f g : A -> bool) (l : list A) :
  List.filter f (List.filter g l) = List.filter g (List.filter f l).
Proof.
  induction l as [|x r IH]; [done|]. cbn [List.filter].
  destruct (f x) eqn:Hf, (g x) eqn:Hg; cbn [List.filter]; rewrite ?Hf, ?Hg, IH; done.
Qed.

Lemma filter_above (l : list A) :
  (∀ y, y ∈ l → k < key y) → List.filter (fun y => key y =? k) l = [].
Proof.
  induction l as [|x r IH]; intros Hl; [done|]. cbn [List.filter].
  destruct (Z.eqb_spec (key x) k) as [Hx|_].
  - specialize (Hl x (list_elem_of_here _ _)). lia.
  - apply IH. intros y Hy. by apply Hl, list_elem_of_further.
Qed.

Lemma filter_below (l : list A) :
  (∀ y, y ∈ l → key y < k) → List.filter (fun y => key y =? k) l = [].
Proof.
  induction l as [|x r IH]; intros Hl; [done|]. cbn [List.filter].
  destruct (Z.eqb_spec (key x) k) as [Hx|_].
  - specialize (Hl x (list_elem_of_here _ _)). lia.
  - apply IH. intros y Hy. by apply Hl, list_elem_of_further.
Qed.

(** The binary search puts the pivot after the elements of its key. *)
Lemma BinaryInsert_filter (run : list A) (pivot : A) :
  StronglySorted (key_le key) run →
  (∀ y, y ∈ run → comparefn pivot y = Some (key pivot - key y)) →
  List.filter (fun y => key y =? k) (JS.BinaryInsert comparefn run pivot)
  = List.filter (fun y => key y =? k) (run ++ [pivot]).
Proof.
  intros Hs Hcmp.
  destruct (BinaryInsert_cases comparefn key run pivot Hs Hcmp)
    as (before & after & -> & -> & Hb & Ha).
  rewrite !List.filter_app. cbn [List.filter].
  destruct (Z.eqb_spec (key pivot) k) as [Hk|Hk].
  - rewrite (filter_above after); [by rewrite app_nil_r|].
    intros y Hy. specialize (Ha y Hy). lia.
  - by rewrite !app_nil_r.
Qed.

Lemma fold_BinaryInsert_filter (rest run : list A) :
  StronglySorted (key_le key) run →
  (∀ x y, x ∈ run ++ rest → y ∈ run ++ rest → comparefn x y = Some (key x - key y)) →
  List.filter (fun y => key y =? k) (fold_left (JS.BinaryInsert comparefn) rest run)
  = List.filter (fun y => key y =? k) (run ++ rest).
Proof.
  revert run. induction rest as [|x rest IH]; intros run Hs Hcmp.
  - by rewrite app_nil_r.
  - assert (Hx : ∀ y, y ∈ run → comparefn x y = Some (key x - key y)).
    { intros y Hy. apply Hcmp; rewrite elem_of_app, elem_of_cons; auto. }
    cbn [fold_left]. rewrite IH.
    + rewrite !List.filter_app, BinaryInsert_filter, List.filter_app by done.
      cbn [List.filter]. destruct (key x =? k); by rewrite <- ?app_assoc.
    + by apply BinaryInsert_sorted.
    + intros a b Ha Hb. apply Hcmp.
      * rewrite elem_of_app, BinaryInsert_Permutation in Ha.
        rewrite elem_of_app, !elem_of_cons in *. tauto.
      * rewrite elem_of_app, BinaryInsert_Permutation in Hb.
        rewrite elem_of_app, !elem_of_cons in *. tauto.
Qed.

(** Reversing a strictly descending run moves no two elements of one
    key past each other: there are no two such elements. *)
Lemma reverse_filter (d : list A) :
  StronglySorted (fun a b => key b < key a) d →
  List.filter (fun y => key y =? k) (reverse d) = List.filter (fun y => key y =? k) d.
Proof.
  induction 1 as [|a d Hs IH Ha]; [done|].
  rewrite reverse_cons, List.filter_app, IH. cbn [List.filter].
  destruct (Z.eqb_spec (key a) k) as [Hk|Hk]; [|by rewrite app_nil_r].
  rewrite filter_below; [done|].
  intros y Hy. rewrite Forall_forall in Ha. specialize (Ha y Hy). simpl in Ha. lia.
Qed.

Lemma sort_filter (l : list A) :
  (∀ x y, x ∈ l → y ∈ l → comparefn x y = Some (key x - key y)) →
  List.filter (fun y => key y =? k) (JS.sort comparefn l)
  = List.filter (fun y => key y =? k) l.
Proof.
  intros Hcmp. unfold JS.sort.
  destruct (JS.CountAndMakeRun comparefn l) as [run rest] eqn:Hrun.
  pose proof (CountAndMakeRun_Permutation comparefn l run rest Hrun) as Hperm.
  assert (Hall : ∀ x y, x ∈ run ++ rest → y ∈ run ++ rest →
                        comparefn x y = Some (key x - key y)).
  { intros x y Hx Hy. rewrite Hperm in Hx, Hy. by apply Hcmp. }
  destruct (CountAndMakeRun_cases comparefn key l run rest Hcmp Hrun)
    as [[<- Hs]|(d & <- & -> & Hs)].
  - by apply fold_BinaryInsert_filter.
  - rewrite fold_BinaryInsert_filter; [|by apply reverse_descending|done].
    by rewrite !List.filter_app, reverse_filter.
Qed.
End Stable.

(** X17: the markets the job sees are those of Ethereum followed by
    those of Plasma, each in the order of its feed and tagged with its
    chain, a failed request or a body without markets giving none; and
    sorting keeps this order among markets of the same expiry time, so
    that on a tie for the earliest expiry the front market is the one
    seen first. *)
Theorem equal_expiries_keep_feed_order
        (Date_parse : string -> option Z) (net : Z -> Snapshot.Fetched) (now k : Z)
        (l : list Snapshot.Tagged) :
  Snapshot.allMarkets (Snapshot.responses net)
  = ((on_chain "Ethereum" 1 <$> delivered (net 1))
     ++ (on_chain "Plasma" 9745 <$> delivered (net 9745)))%list ∧
  ((∀ m, m ∈ l → Snapshot.has_expiry m = true →
         is_Some (Snapshot.expiry_time Date_parse m)) →
   List.filter (fun m => default 0 (Snapshot.expiry_time Date_parse m) =? k)
               (Snapshot.sorted Date_parse now l)
   = List.filter (fun m => default 0 (Snapshot.expiry_time Date_parse m) =? k)
       (List.filter (Snapshot.days_positive Date_parse now)
                    (List.filter Snapshot.has_expiry l))).
Proof.
  split.
  - unfold Snapshot.allMarkets, Snapshot.responses, Snapshot.CHAINS, delivered.
    cbn [fmap list_fmap mbind list_bind Snapshot.id Snapshot.chain_name].
    rewrite app_nil_r.
    by destruct (net 1) as [?|[?|]], (net 9745) as [?|[?|]].
  - intros Hparse. unfold Snapshot.sorted.
    rewrite filter_comm, (sort_filter (Snapshot.by_expiry Date_parse)
                            (fun m => default 0 (Snapshot.expiry_time Date_parse m))).
    + apply filter_comm.
    + intros x y [Hx Hex]%filter_elem_of [Hy Hey]%filter_elem_of.
      destruct (Hparse x Hx Hex) as [tx Htx], (Hparse y Hy Hey) as [ty Hty].
      unfold Snapshot.by_expiry, Snapshot.date_diff.
      unfold Snapshot.expiry_time in Htx, Hty |- *.
      by rewrite Htx, Hty.
Qed.

Section NegativeCount.

Lemma parseInt_negative (n : nat) :
  JS.parseInt (Some ("-" ++ decimal n)) = JS.round64 (- Z.of_nat n).
Proof.
  unfold decimal.
  pose proof (DecimalNat.Unsigned.of_to n) as Hn.
  unfold Nat.of_uint in Hn.
  pose proof (digits_of_uint (Nat.to_uint n) 0) as Hd. rewrite Hn in Hd.
  assert (Hparse : JS.parseInt (Some ("-" ++ NilEmpty.string_of_uint (Nat.to_uint n)))
                   = match JS.digits_prefix 10 (NilEmpty.string_of_uint (Nat.to_uint n))
                                            (Some (Z.of_nat 0)) with
                     | Some v => JS.round64 (-1 * v)
                     | None => JS.NaN
                     end).
  { pose proof (to_uint_cases n) as Hnil.
    destruct (Nat.to_uint n) as [|d|d|d|d|d|d|d|d|d|d].
    - done.
    - destruct d; reflexivity.
    - reflexivity.
    - reflexivity.
    - reflexivity.
    - reflexivity.
    - reflexivity.
    - reflexivity.
    - reflexivity.
    - reflexivity.
    - reflexivity. }
  rewrite Hparse, Hd. f_equal; lia.
Qed.

End NegativeCount.

(** X18: the day count has no lower bound.  A negative count written
    in decimal is read as the binary64 number nearest to it, the count
    itself below [2^53] in magnitude, and goes to the store as it is,
    below zero: the clamp only acts from above. *)
Theorem negative_day_count_passes (n : nat) :
  (0 < n)%nat →
  JS.parseInt (Some ("-" ++ decimal n)) = JS.round64 (- Z.of_nat n) ∧
  History.limitedDays (Some ("-" ++ decimal n)) = JS.round64 (- Z.of_nat n) ∧
  JS.ltb (History.limitedDays (Some ("-" ++ decimal n))) (JS.Finite 0) = true ∧
  (Z.of_nat n < 2 ^ 53 →
   History.limitedDays (Some ("-" ++ decimal n)) = JS.Finite (- Z.of_nat n)).
Proof.
  intros Hn. split; [apply parseInt_negative|].
  assert (Hlimit : History.limitedDays (Some ("-" ++ decimal n))
                   = JS.round64 (- Z.of_nat n) ∧
                   JS.ltb (JS.round64 (- Z.of_nat n)) (JS.Finite 0) = true).
  { unfold History.limitedDays. rewrite parseInt_negative.
    destruct (Z.lt_ge_cases (Z.of_nat n) (2 ^ 53)) as [Hsmall|Hlarge].
    - rewrite round64_small, or_int_finite by lia. simpl.
      split; [f_equal; lia|]. apply negb_true_iff, Z.leb_gt. lia.
    - destruct (round64_large (- Z.of_nat n)) as [(v & -> & Hv) | ->]; [lia| |].
      + rewrite Z.sgn_neg by lia.
        rewrite or_int_finite by lia. simpl.
        split; [f_equal; lia|]. apply negb_true_iff, Z.leb_gt. lia.
      + by destruct (Z.ltb_spec (- Z.of_nat n) 0); [|lia]. }
  destruct Hlimit as [Heq Hneg]. split; [done|]. split; [by rewrite Heq|].
  intros Hsmall. rewrite Heq. apply round64_small. lia.
Qed.

(** X18, an instance: [days=-5]. *)
Lemma negative_day_count_sample : History.limitedDays (Some "-5") = JS.Finite (-5).
Proof.
  destruct (negative_day_count_passes 5) as (_ & _ & _ & Hsmall); [lia|].
  apply Hsmall. reflexivity.
Defined.

(** * The spread on display *)
Section SpreadInvariant.
Context (Date_parse : string -> option Z).

Lemma processMarkets_matches (now : Z) (markets : list Market) (st : App.State) :
  spread_matches st → spread_matches (App.processMarkets Date_parse now markets st).
Proof.
  intros Hst.
  destruct (App.validStructure Date_parse now markets) as [|p [|q l]] eqn:Hvs.
  - by destruct (processMarkets_none Date_parse now markets st Hvs) as [-> | ->].
  - rewrite (processMarkets_single Date_parse now markets st p Hvs).
    unfold spread_matches. by destruct (JS.truthy_num (App.underlyingYield p)).
  - unfold spread_matches. rewrite processMarkets_structure, Hvs.
    destruct (last (q :: l)) as [back|] eqn:Hlast; [|by apply last_None in Hlast].
    exists back. split; [done|].
    apply processMarkets_spread; rewrite Hvs; [simpl; lia|done|].
    rewrite last_lookup in Hlast. exact Hlast.
Qed.

End SpreadInvariant.

(** X19: the spread on display is the spread of the structure on
    display.  It holds of the initial state and every refresh keeps it,
    whatever the feed answers: with no point or one point shown the
    spread is zero, with more the spread is the implied yield of the
    last point shown minus that of the first, to two decimals. *)
Theorem spread_matches_structure
        (Date_parse : string -> option Z) (api : App.Fetched) (now : Z) (st : App.State) :
  spread_matches st → spread_matches (App.fetchPendleMarkets Date_parse api now st).
Proof.
  intros Hst. unfold App.fetchPendleMarkets.
  destruct api as [message|code|markets results]; [done..|].
  destruct (length (default [] (App.list_or markets results)) =? 0)%nat; [done|].
  destruct (length (List.filter App.is_susde _) =? 0)%nat;
    [|by apply processMarkets_matches].
  destruct (0 <? length (List.filter App.is_ethena _))%nat;
    [by apply processMarkets_matches|done].
Qed.

(** X19, an instance: the first refresh, on the three-maturity feed. *)
Lemma spread_matches_sample :
  spread_matches App.initial ∧
  spread_matches (App.fetchPendleMarkets IsoDate.parse
                    (App.Data (Some (delivered (one_failing 2))) None) asOf App.initial).
Proof.
  assert (Hinit : spread_matches App.initial) by reflexivity.
  split; [exact Hinit|].
  apply spread_matches_structure. exact Hinit.
Defined.

(** * How a read of the history ends *)

(** X20: an [OPTIONS] request is answered 200 with an empty body,
    whatever the day count and the state of the store.  Every other method is served alike, the
    method is not looked at again.  Such a request is answered 200 with
    the data exactly when the store answers with rows, and 500 with an
    error and nothing else otherwise: the text of a refusal after
    [Supabase error: ], or the message of a failed request as it is. *)
Theorem history_outcomes
        (method : string) (query_days : option string) (link : Supabase.Link)
        (tbl : gmap string Supabase.Columns) :
  let resp := History.handler method query_days link tbl in
  (String.eqb method "OPTIONS" = true → resp = {| status := 200; body := [] |}) ∧
  (String.eqb method "OPTIONS" = false →
   (∀ other, String.eqb other "OPTIONS" = false →
             History.handler other query_days link tbl = resp) ∧
   (status resp = 200 ↔
    ∃ data, Supabase.select_desc link (History.limitedDays query_days) tbl
            = Supabase.Ok data) ∧
   (status resp = 200 ↔ is_Some (field "data" (body resp))) ∧
   (status resp = 500 ↔ ∃ message, body resp = [("error", JStr message)]) ∧
   (status resp = 200 ∨ status resp = 500) ∧
   (∀ text, link = Supabase.Refusing text →
            body resp = [("error", JStr ("Supabase error: " ++ text))]) ∧
   (∀ message, link = Supabase.Down message →
               body resp = [("error", JStr message)])).
Proof.
  intros resp. split.
  { intros Hmethod. subst resp. unfold History.handler. by rewrite Hmethod. }
  intros Hmethod.
  split.
  { intros other Hother. subst resp. unfold History.handler. by rewrite Hmethod, Hother. }
  subst resp. unfold History.handler. rewrite Hmethod.
  destruct link as [|text|message]; simpl.
  - destruct (History.limitedDays query_days) as [|limit|negative]; simpl;
      [repeat split; eauto; try done; naive_solver| |
       repeat split; eauto; try done; naive_solver].
    destruct (limit <? 0); simpl;
      repeat split; eauto; try done; naive_solver.
  - repeat split; eauto; try done; naive_solver.
  - repeat split; eauto; try done; naive_solver.
Qed.

(** X20, an instance: an [OPTIONS] request while the store is down, and
    a [POST] served as a [GET]. *)
Lemma history_outcomes_sample :
  History.handler "OPTIONS" (Some "2") (Supabase.Down "fetch failed") three_days
  = {| status := 200; body := [] |} ∧
  History.handler "POST" (Some "2") Supabase.Up three_days
  = History.handler "GET" (Some "2") Supabase.Up three_days.
Proof.
  split.
  - destruct (history_outcomes "OPTIONS" (Some "2") (Supabase.Down "fetch failed")
                three_days) as [Hoptions _].
    apply Hoptions. reflexivity.
  - destruct (history_outcomes "GET" (Some "2") Supabase.Up three_days) as [_ Hget].
    destruct Hget as [Hother _]; [reflexivity|].
    apply Hother. reflexivity.
Defined.
